(** * trivialt: the TFTP server front end (server.go)

    A shallow embedding of [server.go]: the [Server] configuration record and
    its options, the receive loop [Serve], [Close], and the per-request
    [dispatchRequest].  Effects are explicit: a [World] holds the byte slices
    that live on the heap, the UDP sockets that are open, and the trace of
    calls that leave this file (socket reads, goroutine starts, calls into the
    connection and into the registered handlers). *)

From Stdlib Require Import ZArith String Ascii Strings.Byte List Lia.
From stdpp Require Import base option list gmap sets strings.

Open Scope string_scope.
Open Scope list_scope.
Open Scope Z_scope.

(** ** Values of the surrounding package and of the platform *)

Abbreviation bytes := (list byte).

(** [net.UDPAddr]. *)
Record UDPAddr := mkUDPAddr { IP : list byte; Port : Z; Zone : string }.

(** A UDP socket ([*net.UDPConn]) is identified by its descriptor. *)
Abbreviation socket := nat (only parsing).

(** A slice's backing array is identified by its heap location. *)
Abbreviation loc := nat (only parsing).

(** [TransferMode] is a string type in the package. *)
Abbreviation TransferMode := string (only parsing).

(** The package's error values that [server.go] names, the platform's errors
    it can meet, and [wrapError]'s cause chain. *)
Inductive error : Type :=
| ErrInvalidNetwork
| ErrInvalidRetransmit
| ErrNoRegisteredHandlers
| ErrAddressNotAvailable
| ErrNetClosing                          (* use of closed network connection *)
| ErrNilConn                             (* Close called on a nil *UDPConn *)
| ErrPlatform (msg : string)             (* any other error of the net package *)
| ErrDecode (msg : string)               (* returned by datagram.validate *)
| ErrNegotiation (msg : string)          (* returned by conn.readSetup *)
| ErrWrapped (cause : error) (msg : string).

(** Modelled from the spec: [wrapError(err, msg)] (defined outside server.go),
    the error with one more link in its cause chain.  "Errors surfaced upstream
    carry a cause chain so that callers can inspect the original failure"; a
    nil error stays nil, as [ListenAndServe] relies on. *)
Definition wrapError (err : option error) (msg : string) : option error :=
  match err with
  | Some e => Some (ErrWrapped e msg)
  | None => None
  end.

(** Modelled from the spec: the defaults of the package (defined outside
    server.go).  "retransmit: per-packet retransmission budget, default 10";
    server.go's own comments say "Default: 10." and "Default: udp.". *)
Definition defaultRetransmit : Z := 10.
Definition defaultUDPNet : string := "udp".

(** Modelled from the spec: the wire constants of section 4.A, "Opcodes:
    RRQ=1, WRQ=2, DATA=3, ACK=4, ERROR=5, OACK=6" and "Error codes (wire):
    ... 4 illegal operation". *)
Definition opCodeRRQ : Z := 1.
Definition opCodeWRQ : Z := 2.
Definition opCodeDATA : Z := 3.
Definition opCodeACK : Z := 4.
Definition opCodeERROR : Z := 5.
Definition opCodeOACK : Z := 6.
Definition ErrCodeIllegalOperation : Z := 4.

(** Handlers are interface values; the server only stores them and calls
    them, so a handler is known by its identity. *)
Inductive ReadHandler : Type := MkReadHandler (id : nat).
Inductive WriteHandler : Type := MkWriteHandler (id : nat).

(** ** Server *)

Record Server := mkServer {
  s_log : string;                 (* log:  newLogger(name) *)
  s_net : string;                 (* net *)
  s_addrStr : string;             (* addrStr *)
  s_addr : option UDPAddr;        (* addr *)
  s_conn : option socket;         (* conn: nil until Serve *)
  s_close : bool;                 (* close *)
  s_retransmit : Z;               (* retransmit: per-packet retransmission limit *)
  s_rh : option ReadHandler;      (* rh: nil when unregistered *)
  s_wh : option WriteHandler      (* wh: nil when unregistered *)
}.

Definition set_net (v : string) (s : Server) : Server :=
  mkServer (s_log s) v (s_addrStr s) (s_addr s) (s_conn s) (s_close s)
           (s_retransmit s) (s_rh s) (s_wh s).
Definition set_conn (v : option socket) (s : Server) : Server :=
  mkServer (s_log s) (s_net s) (s_addrStr s) (s_addr s) v (s_close s)
           (s_retransmit s) (s_rh s) (s_wh s).
Definition set_close (v : bool) (s : Server) : Server :=
  mkServer (s_log s) (s_net s) (s_addrStr s) (s_addr s) (s_conn s) v
           (s_retransmit s) (s_rh s) (s_wh s).
Definition set_retransmit (v : Z) (s : Server) : Server :=
  mkServer (s_log s) (s_net s) (s_addrStr s) (s_addr s) (s_conn s) (s_close s)
           v (s_rh s) (s_wh s).
Definition set_rh (v : option ReadHandler) (s : Server) : Server :=
  mkServer (s_log s) (s_net s) (s_addrStr s) (s_addr s) (s_conn s) (s_close s)
           (s_retransmit s) v (s_wh s).
Definition set_wh (v : option WriteHandler) (s : Server) : Server :=
  mkServer (s_log s) (s_net s) (s_addrStr s) (s_addr s) (s_conn s) (s_close s)
           (s_retransmit s) (s_rh s) v.

(** [type ServerOpt func( *Server ) error]: an option works on the server in
    place and answers with an error or nil. *)
Definition ServerOpt : Type := Server -> Server * option error.

(** The [for _, opt := range opts] loop of [NewServer]. *)
Fixpoint applyOpts (opts : list ServerOpt) (s : Server) : option Server * option error :=
  match opts with
  | [] => (Some s, None)
  | opt :: rest =>
      match opt s with
      | (_, Some err) => (None, Some err)
      | (s', None) => applyOpts rest s'
      end
  end.

Definition NewServer (addr : string) (opts : list ServerOpt) : option Server * option error :=
  let s := {| s_log := "server";
              s_net := defaultUDPNet;
              s_addrStr := addr;
              s_addr := None;
              s_conn := None;
              s_close := false;
              s_retransmit := defaultRetransmit;
              s_rh := None;
              s_wh := None |} in
  applyOpts opts s.

(** [func (s *Server) ReadHandler(rh ReadHandler)]: [s.rh = rh], for any
    interface value, nil included. *)
Definition RegisterReadHandler (rh : option ReadHandler) (s : Server) : Server :=
  set_rh rh s.

(** [func (s *Server) WriteHandler(wh WriteHandler)]: [s.wh = wh], for any
    interface value, nil included. *)
Definition RegisterWriteHandler (wh : option WriteHandler) (s : Server) : Server :=
  set_wh wh s.

Definition ServerNet (net : string) : ServerOpt := fun s =>
  if negb (String.eqb net "udp") && negb (String.eqb net "udp4")
     && negb (String.eqb net "udp6")
  then (s, Some ErrInvalidNetwork)
  else (set_net net s, None).

Definition ServerRetransmit (i : Z) : ServerOpt := fun s =>
  if i <? 0
  then (s, Some ErrInvalidRetransmit)
  else (set_retransmit i s, None).

(** ** Connections, requests and the trace *)

(** The fields of [conn] that server.go reads or assigns, with the socket and
    the peer that [newConn] gives the connection. *)
Record conn := mkConn {
  c_netConn : socket;             (* the connection's own UDP socket *)
  c_remoteAddr : UDPAddr;         (* the peer *)
  c_mode : TransferMode;          (* mode *)
  c_retransmit : Z;               (* retransmit *)
  c_rx : bytes;                   (* rx: the datagram received *)
  c_err : option error            (* err *)
}.

Definition set_c_mode (v : TransferMode) (c : conn) : conn :=
  mkConn (c_netConn c) (c_remoteAddr c) v (c_retransmit c) (c_rx c) (c_err c).
Definition set_c_retransmit (v : Z) (c : conn) : conn :=
  mkConn (c_netConn c) (c_remoteAddr c) (c_mode c) v (c_rx c) (c_err c).
Definition set_c_err (v : option error) (c : conn) : conn :=
  mkConn (c_netConn c) (c_remoteAddr c) (c_mode c) (c_retransmit c) (c_rx c) v.

(** [conn.rx.setBytes(b)]. *)
Definition setBytes (b : bytes) (c : conn) : conn :=
  mkConn (c_netConn c) (c_remoteAddr c) (c_mode c) (c_retransmit c) b (c_err c).

Record readRequest := mkReadRequest { rr_conn : conn; rr_name : string }.
Record writeRequest := mkWriteRequest { wr_conn : conn; wr_name : string }.

Inductive level : Type := LvlErr | LvlDebug | LvlTrace.

(** What server.go does to the outside, in program order.  An event that
    hands a connection to code outside this file carries the connection as
    [dispatchRequest] has set it up at that point. *)
Inductive event : Type :=
| EvReadFromUDP (sk : socket) (numBytes : nat) (addr : option UDPAddr) (err : option error)
| EvGo (addr : UDPAddr) (b : loc)                    (* go s.dispatchRequest(addr, bufCopy) *)
| EvSocketClose (sk : socket)                        (* s.conn.Close() *)
| EvNewConn (net : string) (mode : TransferMode) (addr : UDPAddr) (r : conn + error)
| EvLog (lvl : level) (format : string)
| EvSendError (c : conn) (code : Z) (msg : string)   (* conn.sendError(code, msg) *)
| EvServeTFTP (h : ReadHandler) (w : readRequest)    (* s.rh.ServeTFTP(w) *)
| EvReadSetup (c : conn) (r : option error)          (* conn.readSetup(true) *)
| EvReceiveTFTP (h : WriteHandler) (w : writeRequest)(* s.wh.ReceiveTFTP(w) *)
| EvConnClose (c : conn).                            (* conn.Close() *)

Record World := mkWorld {
  w_heap : gmap nat (list byte);  (* backing arrays of the byte slices *)
  w_open : gset nat;              (* UDP sockets that are open *)
  w_refuse : option error;        (* the platform's answer to a request for a new socket *)
  w_trace : list event
}.

Definition set_heap (h : gmap nat (list byte)) (w : World) : World :=
  mkWorld h (w_open w) (w_refuse w) (w_trace w).

(** A small state monad over the world. *)
Definition M (A : Type) : Type := World -> A * World.

Definition ret {A} (a : A) : M A := fun w => (a, w).
Definition bind {A B} (m : M A) (k : A -> M B) : M B :=
  fun w => let '(a, w') := m w in k a w'.

Declare Scope go_scope.
Delimit Scope go_scope with go.
Notation "x <- m ;; k" := (bind m (fun x => k))
  (at level 100, m at next level, right associativity) : go_scope.
Notation "m ;; k" := (bind m (fun _ => k))
  (at level 100, right associativity) : go_scope.
Open Scope go_scope.

Definition emit (e : event) : M unit :=
  fun w => (tt, mkWorld (w_heap w) (w_open w) (w_refuse w) (w_trace w ++ [e])).

Definition logf (lvl : level) (format : string) : M unit := emit (EvLog lvl format).

(** The methods of the package that server.go calls and that are defined in
    its other files: the datagram accessors and [conn.readSetup]. *)
Class Engine := {
  validate : bytes -> option error;        (* datagram.validate *)
  opcode : bytes -> Z;                     (* datagram.opcode *)
  mode : bytes -> TransferMode;            (* datagram.mode *)
  filename : bytes -> string;              (* datagram.filename *)
  readSetup : conn -> bool -> option error (* conn.readSetup *)
}.

(** Modelled from the spec: [newConn] (conn.go is not part of the sources).
    "Allocate a new ephemeral UDP socket bound to an OS-assigned port; this
    becomes the transfer's local endpoint".  The platform may refuse the
    socket, which is the error [dispatchRequest] checks for. *)
Definition newConn (net : string) (mode : TransferMode) (addr : UDPAddr) : M (conn + error) :=
  fun w =>
    match w_refuse w with
    | Some e =>
        (inr e, mkWorld (w_heap w) (w_open w) (w_refuse w)
                        (w_trace w ++ [EvNewConn net mode addr (inr e)]))
    | None =>
        let sk := fresh (w_open w) in
        let c := {| c_netConn := sk; c_remoteAddr := addr; c_mode := mode;
                    c_retransmit := defaultRetransmit; c_rx := []; c_err := None |} in
        (inl c, mkWorld (w_heap w) ({[sk]} ∪ w_open w) (w_refuse w)
                        (w_trace w ++ [EvNewConn net mode addr (inl c)]))
    end.

(** [conn.sendError(code, msg)] (defined outside server.go): the call is
    recorded; its result is not looked at by the caller. *)
Definition sendError (c : conn) (code : Z) (msg : string) : M unit :=
  emit (EvSendError c code msg).

(** Modelled from the spec: [conn.Close()] (defined outside server.go).  "On
    destruction the socket is closed."  Closing a socket that is not open
    answers with the platform's error. *)
Definition conn_Close (c : conn) : M (option error) :=
  fun w =>
    if decide (c_netConn c ∈ w_open w)
    then (None, mkWorld (w_heap w) (w_open w ∖ {[c_netConn c]}) (w_refuse w)
                        (w_trace w ++ [EvConnClose c]))
    else (Some ErrNetClosing, mkWorld (w_heap w) (w_open w) (w_refuse w)
                                      (w_trace w ++ [EvConnClose c])).

(** Modelled from the spec: [errorDefer(fn, log, msg)] (defined outside
    server.go) runs the deferred function, so that "on destruction the socket
    is closed", and logs the error it returns, if any. *)
Definition errorDefer (fn : M (option error)) (msg : string) : M unit :=
  err <- fn ;;
  match err with
  | Some _ => logf LvlErr msg
  | None => ret tt
  end.

Section Dispatch.
Context `{Engine}.

(** Lines 110 to 158 of [dispatchRequest]: what runs between the [defer] and
    the return.  [c] is the connection behind the pointer [conn]; the
    assignments to its fields are threaded through, and the answer is the
    connection as they have left it, which is what the deferred [conn.Close]
    and the request objects (they hold the same pointer) see. *)
Definition dispatchRequest_body (s : Server) (addr : UDPAddr) (b : bytes) (c : conn) : M conn :=
  (* Set retransmit *)
  let c := set_c_retransmit (s_retransmit s) c in
  (* Validate request datagram *)
  let c := setBytes b c in
  match validate (c_rx c) with
  | Some err =>
      logf LvlDebug "Error decoding new request: %v" ;;
      ret c
  | None =>
      logf LvlDebug "New request from %v: %s" ;;
      (* Set mode from request *)
      let c := set_c_mode (mode (c_rx c)) c in
      if (opcode (c_rx c) =? opCodeRRQ)%Z then
        match s_rh s with
        | None =>
            logf LvlDebug "No read handler registered." ;;
            sendError c ErrCodeIllegalOperation "Server does not support read requests." ;;
            ret c
        | Some rh =>
            let w := {| rr_conn := c; rr_name := filename (c_rx c) |} in
            emit (EvServeTFTP rh w) ;;
            ret c
        end
      else if (opcode (c_rx c) =? opCodeWRQ)%Z then
        match s_wh s with
        | None =>
            logf LvlDebug "No write handler registered." ;;
            sendError c ErrCodeIllegalOperation "Server does not support write requests." ;;
            ret c
        | Some wh =>
            let name := filename (c_rx c) in
            logf LvlTrace "performing write setup" ;;
            let err := readSetup c true in
            emit (EvReadSetup c err) ;;
            let c := match err with
                     | Some e => set_c_err (Some e) c
                     | None => c
                     end in
            emit (EvReceiveTFTP wh {| wr_conn := c; wr_name := name |}) ;;
            ret c
        end
      else
        logf LvlDebug "Unexpected Request" ;;
        ret c
  end.

Definition dispatchRequest (s : Server) (addr : UDPAddr) (b : bytes) : M unit :=
  r <- newConn (s_net s) "" addr ;; (* Use empty mode until request has been parsed. *)
  match r with
  | inr err =>
      logf LvlErr "Received error opening connection for new request: %v"
  | inl c =>
      c' <- dispatchRequest_body s addr b c ;;
      errorDefer (conn_Close c') "error closing network connection in dispath"
  end.
End Dispatch.

(** ** The receive loop *)

(** [make([]byte, n)]: a zeroed array at a location not in use. *)
Definition make (n : nat) : M nat :=
  fun w =>
    let l := fresh (dom (w_heap w)) in
    (l, set_heap (<[l := replicate n x00]> (w_heap w)) w).

(** The array behind a slice. *)
Definition deref (w : World) (l : nat) : list byte := default [] (w_heap w !! l).

(** [copy(dst, src)]: the first min(len(dst), len(src)) elements of [src]
    overwrite the front of [dst]; answers how many. *)
Definition copy (dst src : nat) : M nat :=
  fun w =>
    let d := deref w dst in
    let s := deref w src in
    let k := Nat.min (length d) (length s) in
    (k, set_heap (<[dst := take k s ++ drop k d]> (w_heap w)) w).

(** What the receive loop meets while it runs: a datagram arrives, the
    platform fails the read, or another goroutine calls [s.Close()]. *)
Inductive input : Type :=
| Arrives (payload : list byte) (from : UDPAddr)
| ReadFails (e : error)
| CloseCalled.

Inductive outcome : Type :=
| Blocked                          (* still inside conn.ReadFromUDP *)
| Returned (err : option error).

(** [Close] of [net.UDPConn], on a socket or on nil. *)
Definition UDPConn_Close (c : option nat) : M (option error) :=
  fun w =>
    match c with
    | None => (Some ErrNilConn, w)
    | Some sk =>
        if decide (sk ∈ w_open w)
        then (None, mkWorld (w_heap w) (w_open w ∖ {[sk]}) (w_refuse w)
                            (w_trace w ++ [EvSocketClose sk]))
        else (Some ErrNetClosing, w)
    end.

(** [func (s *Server) Close() error]. *)
Definition Close (s : Server) : M (option error * Server) :=
  let s := set_close true s in
  err <- UDPConn_Close (s_conn s) ;;
  ret (err, s).

(** A successful [conn.ReadFromUDP(buf)]: the datagram, cut to the length of
    [buf], overwrites the front of [buf]. *)
Definition ReadFromUDP_ok (sk : nat) (buf : nat) (payload : list byte) (from : UDPAddr) : M nat :=
  fun w =>
    let old := deref w buf in
    let n := Nat.min (length payload) (length old) in
    (n, mkWorld (<[buf := take n payload ++ drop n old]> (w_heap w)) (w_open w)
                (w_refuse w)
                (w_trace w ++ [EvReadFromUDP sk n (Some from) None])).

(** The [if err != nil] branch of the loop. *)
Definition readFailed (s : Server) (sk : nat) (e : error) (w : World) : outcome * Server * World :=
  let w := snd (emit (EvReadFromUDP sk 0 None (Some e)) w) in
  if s_close s
  then (Returned None, s, w)
  else (Returned (wrapError (Some e) "reading from conn"), s, w).

(** The [for] loop of [Serve], run against what the loop meets. *)
Fixpoint Serve_loop (s : Server) (conn : nat) (buf : nat) (ins : list input) (w : World)
  : outcome * Server * World :=
  if decide (conn ∈ w_open w) then
    match ins with
    | [] => (Blocked, s, w)
    | CloseCalled :: rest =>
        let '((_, s'), w') := Close s w in
        Serve_loop s' conn buf rest w'
    | ReadFails e :: rest => readFailed s conn e w
    | Arrives payload from :: rest =>
        let '(numBytes, w) := ReadFromUDP_ok conn buf payload from w in
        let '(bufCopy, w) := make numBytes w in
        let '(_, w) := copy bufCopy buf w in
        let '(_, w) := emit (EvGo from bufCopy) w in
        Serve_loop s conn buf rest w
    end
  else readFailed s conn ErrNetClosing w.

(** [func (s *Server) Serve(conn *net.UDPConn) error]. *)
Definition Serve (s : Server) (conn : nat) (ins : list input) (w : World)
  : outcome * Server * World :=
  match s_rh s, s_wh s with
  | None, None => (Returned (Some ErrNoRegisteredHandlers), s, w)
  | _, _ =>
      let s := set_conn (Some conn) s in
      let '(buf, w) := make 1024 w in
      Serve_loop s conn buf ins w
  end.

(** ** The datagram codec and option check of the specification

    The claims about [dispatchRequest] hold for every [Engine]; the instance
    below is the one the specification describes, and is what the theorems
    are run on. *)
Module Wire.

Definition u16 (hi lo : byte) : Z :=
  256 * Z.of_N (Byte.to_N hi) + Z.of_N (Byte.to_N lo).

(** The NUL-terminated strings of [b], in order; nothing when the last one
    lacks its NUL.  [cur] holds the string being read, last byte first. *)
Fixpoint fields (b : list byte) (cur : list byte) : option (list (list byte)) :=
  match b with
  | [] => match cur with [] => Some [] | _ :: _ => None end
  | x :: rest =>
      if Byte.eqb x x00
      then match fields rest [] with
           | Some fs => Some (rev cur :: fs)
           | None => None
           end
      else fields rest (x :: cur)
  end.

Definition lower (x : byte) : byte :=
  let n := Byte.to_N x in
  if ((65 <=? n) && (n <=? 90))%N then default x (Byte.of_N (n + 32)) else x.

Definition text (f : list byte) : string := string_of_list_byte (map lower f).

Definition nonempty (f : list byte) : bool :=
  match f with [] => false | _ :: _ => true end.

Definition pairs_ok (opts : list (list byte)) : bool :=
  Nat.even (length opts) && forallb nonempty opts.

Definition mode_ok (m : list byte) : bool :=
  String.eqb (text m) "netascii" || String.eqb (text m) "octet".

(** Modelled from the spec: datagram.validate (datagram.go is not part of
    the sources).  "Decoding validates: minimum length per opcode; presence
    of terminating NULs for all string fields; mode in netascii, octet,
    case-insensitive; option keys and values are non-empty and appear in
    key/value pairs." *)
Definition validate (b : list byte) : option error :=
  match b with
  | hi :: lo :: body =>
      let op := u16 hi lo in
      if (op =? opCodeRRQ) || (op =? opCodeWRQ) then
        match fields body [] with
        | Some (_ :: m :: opts) =>
            if negb (mode_ok m) then Some (ErrDecode "Invalid transfer mode")
            else if negb (pairs_ok opts) then Some (ErrDecode "Corrupt options")
            else None
        | _ => Some (ErrDecode "Corrupt request datagram")
        end
      else if (op =? opCodeDATA) || (op =? opCodeACK) then
        if (length body <? 2)%nat then Some (ErrDecode "Corrupt block number") else None
      else if op =? opCodeERROR then
        match body with
        | _ :: _ :: msg =>
            match fields msg [] with
            | Some [_] => None
            | _ => Some (ErrDecode "Corrupt ERROR datagram")
            end
        | _ => Some (ErrDecode "Corrupt ERROR datagram")
        end
      else if op =? opCodeOACK then
        match fields body [] with
        | Some opts => if pairs_ok opts then None else Some (ErrDecode "Corrupt OACK datagram")
        | None => Some (ErrDecode "Corrupt OACK datagram")
        end
      else Some (ErrDecode "Invalid opcode")
  | _ => Some (ErrDecode "Datagram has no opcode")
  end.

(** Modelled from the spec: the accessors of a datagram, after the wire
    format "RRQ/WRQ : op(2) | filename(NUL-term) | mode(NUL-term) |
    (key(NUL) value(NUL))*". *)
Definition opcode (b : list byte) : Z :=
  match b with
  | hi :: lo :: _ => u16 hi lo
  | _ => 0
  end.

Definition request_fields (b : list byte) : list (list byte) :=
  default [] (fields (drop 2 b) []).

Definition filename (b : list byte) : string :=
  string_of_list_byte (nth 0 (request_fields b) []).

Definition mode (b : list byte) : string :=
  text (nth 1 (request_fields b) []).

(** Decimal digits to a number; nothing for an empty or non-decimal string. *)
Fixpoint decimal (f : list byte) (acc : Z) : option Z :=
  match f with
  | [] => Some acc
  | x :: rest =>
      let n := Z.of_N (Byte.to_N x) in
      if (48 <=? n) && (n <=? 57) then decimal rest (10 * acc + (n - 48)) else None
  end.

Definition in_range (v : list byte) (lo hi : Z) : bool :=
  match v with
  | [] => false
  | _ :: _ =>
      match decimal v 0 with
      | Some n => (lo <=? n) && (n <=? hi)
      | None => false
      end
  end.

(** One requested option against section 4.B: blksize in 8..65464, timeout
    in 1..255, windowsize in 1..65535; other keys are not judged. *)
Definition option_ok (k v : list byte) : bool :=
  if String.eqb (text k) "blksize" then in_range v 8 65464
  else if String.eqb (text k) "timeout" then in_range v 1 255
  else if String.eqb (text k) "windowsize" then in_range v 1 65535
  else true.

Fixpoint options_ok (opts : list (list byte)) : bool :=
  match opts with
  | k :: v :: rest => option_ok k v && options_ok rest
  | _ => true
  end.

(** Modelled from the spec: conn.readSetup as far as its result goes
    (conn.go is not part of the sources).  "Option negotiation failure:
    out-of-range or unsatisfiable option." *)
Definition readSetup (c : conn) (server : bool) : option error :=
  if options_ok (drop 2 (request_fields (c_rx c)))
  then None
  else Some (ErrNegotiation "option out of range").

Definition engine : Engine :=
  Build_Engine validate opcode mode filename readSetup.

End Wire.

(** ** Concrete requests, servers and worlds for running the model *)

Definition client : UDPAddr := {| IP := [x7f; x00; x00; x01]; Port := 50000; Zone := "" |}.

(** RRQ for "alpha", mode octet. *)
Definition rrq_alpha : list byte :=
  [x00; x01] ++ list_byte_of_string "alpha" ++ [x00] ++ list_byte_of_string "octet" ++ [x00].

(** WRQ for "beta", mode netascii. *)
Definition wrq_beta : list byte :=
  [x00; x02] ++ list_byte_of_string "beta" ++ [x00] ++ list_byte_of_string "NetASCII" ++ [x00].

(** WRQ for "beta", mode octet, blksize=7. *)
Definition wrq_blksize7 : list byte :=
  [x00; x02] ++ list_byte_of_string "beta" ++ [x00] ++ list_byte_of_string "octet" ++ [x00]
  ++ list_byte_of_string "blksize" ++ [x00] ++ list_byte_of_string "7" ++ [x00].

(** ACK of block 1: well formed, but no request. *)
Definition ack_1 : list byte := [x00; x04; x00; x01].

(** An RRQ whose mode lacks its NUL. *)
Definition rrq_cut : list byte :=
  [x00; x01] ++ list_byte_of_string "alpha" ++ [x00] ++ list_byte_of_string "octet".

Definition server0 : Server :=
  {| s_log := "server"; s_net := "udp"; s_addrStr := ":69"; s_addr := None;
     s_conn := None; s_close := false; s_retransmit := 10; s_rh := None; s_wh := None |}.

Definition fs_read : ReadHandler := MkReadHandler 0.
Definition fs_write : WriteHandler := MkWriteHandler 0.

(** The server with the read handler registered, and with both. *)
Definition server_r : Server := RegisterReadHandler (Some fs_read) server0.
Definition server_rw : Server := RegisterWriteHandler (Some fs_write) server_r.

(** A world with the listener (socket 3) open and nothing else. *)
Definition world0 : World :=
  {| w_heap := ∅; w_open := {[ 3%nat ]}; w_refuse := None; w_trace := [] |}.

(** The same world with the platform out of sockets. *)
Definition world_refusing : World :=
  {| w_heap := ∅; w_open := {[ 3%nat ]};
     w_refuse := Some (ErrPlatform "too many open files"); w_trace := [] |}.

(** ** Reading a trace *)

(** The events a run added to the trace of the world it started in. *)
Definition new_events (w w' : World) : list event :=
  drop (length (w_trace w)) (w_trace w').

Definition events_of {A} (m : M A) (w : World) : list event :=
  new_events w (snd (m w)).

(** The connection an event hands to code outside server.go. *)
Definition event_conn (e : event) : option conn :=
  match e with
  | EvSendError c _ _ => Some c
  | EvServeTFTP _ w => Some (rr_conn w)
  | EvReadSetup c _ => Some c
  | EvReceiveTFTP _ w => Some (wr_conn w)
  | EvConnClose c => Some c
  | _ => None
  end.

(** The socket an event works on, if any. *)
Definition event_socket (e : event) : option nat :=
  match e with
  | EvReadFromUDP sk _ _ _ => Some sk
  | EvSocketClose sk => Some sk
  | EvNewConn _ _ _ (inl c) => Some (c_netConn c)
  | EvNewConn _ _ _ (inr _) => None
  | EvGo _ _ => None
  | EvLog _ _ => None
  | _ => c_netConn <$> event_conn e
  end.

(** A call into a registered handler. *)
Definition is_handler_call (e : event) : bool :=
  match e with
  | EvServeTFTP _ _ | EvReceiveTFTP _ _ => true
  | _ => false
  end.

(** A call that can put a packet for the peer on the wire: an ERROR, the OACK
    of the write setup, or whatever a handler sends. *)
Definition may_send (e : event) : bool :=
  match e with
  | EvSendError _ _ _ | EvReadSetup _ _ | EvServeTFTP _ _ | EvReceiveTFTP _ _ => true
  | _ => false
  end.

(** The ERROR packets of a trace: code and message. *)
Definition sent_errors (evs : list event) : list (Z * string) :=
  omap (fun e => match e with
                 | EvSendError _ code msg => Some (code, msg)
                 | _ => None
                 end) evs.

(** The goroutines a trace starts: peer address and slice handed over. *)
Definition started (evs : list event) : list (UDPAddr * nat) :=
  omap (fun e => match e with
                 | EvGo a l => Some (a, l)
                 | _ => None
                 end) evs.

(** What the started goroutines find in their slices in world [w]. *)
Definition handed_off (evs : list event) (w : World) : list (UDPAddr * list byte) :=
  map (fun al => (fst al, deref w (snd al))) (started evs).

(** The datagrams the loop takes in: those that arrive before the first
    failed read or [Close]. *)
Fixpoint accepted (ins : list input) : list (list byte * UDPAddr) :=
  match ins with
  | Arrives p a :: rest => (p, a) :: accepted rest
  | _ => []
  end.

Definition arrivals (ds : list (list byte * UDPAddr)) : list input :=
  map (fun d => Arrives (fst d) (snd d)) ds.

(** The connection [dispatchRequest] works with once the datagram [b] from
    [addr] has been taken in on socket [sk]. *)
Definition configured `{Engine} (s : Server) (sk : nat) (addr : UDPAddr) (b : list byte) : conn :=
  {| c_netConn := sk; c_remoteAddr := addr; c_mode := mode b;
     c_retransmit := s_retransmit s; c_rx := b; c_err := None |}.

(** The connection [newConn] answers with in world [w]. *)
Definition opened (w : World) (mode : string) (addr : UDPAddr) : conn :=
  {| c_netConn := fresh (w_open w); c_remoteAddr := addr; c_mode := mode;
     c_retransmit := defaultRetransmit; c_rx := []; c_err := None |}.

(** Options that fail on no server. *)
Definition always_succeeds (o : ServerOpt) : Prop := forall s, snd (o s) = None.

(** One turn of the loop on an arriving datagram: read, make the copy, copy,
    start the goroutine. *)
Definition received (conn buf : nat) (payload : list byte) (from : UDPAddr) (w : World) : World :=
  let '(numBytes, w) := ReadFromUDP_ok conn buf payload from w in
  let '(bufCopy, w) := make numBytes w in
  let '(_, w) := copy bufCopy buf w in
  snd (emit (EvGo from bufCopy) w).

(** What holds of the heap between two turns of the loop, for the goroutines
    started by [evs]: the receive buffer [buf] is a live array of 1024 bytes,
    and the slices handed over are live, pairwise distinct and not [buf]. *)
Definition loop_inv (buf : nat) (evs : list event) (w : World) : Prop :=
  length (deref w buf) = 1024%nat
  /\ buf ∈ dom (w_heap w)
  /\ NoDup (map snd (started evs))
  /\ (forall l, l ∈ map snd (started evs) -> l ∈ dom (w_heap w) /\ l <> buf).

(** The datagram as the goroutine gets it. *)
Definition delivered (d : list byte * UDPAddr) : UDPAddr * list byte :=
  (snd d, take 1024 (fst d)).

(** The byte counts [ReadFromUDP] reported without error. *)
Definition read_counts (evs : list event) : list nat :=
  omap (fun e => match e with
                 | EvReadFromUDP _ n _ None => Some n
                 | _ => None
                 end) evs.

Definition has_handler (s : Server) : Prop := s_rh s <> None \/ s_wh s <> None.

(** ** The rest of server.go: Addr and ListenAndServe *)

Definition set_addr (v : option UDPAddr) (s : Server) : Server :=
  mkServer (s_log s) (s_net s) (s_addrStr s) v (s_conn s) (s_close s)
           (s_retransmit s) (s_rh s) (s_wh s).

(** The functions of the platform's net package that the rest of server.go
    calls: [net.ResolveUDPAddr(network, address)] and the [LocalAddr] of a
    UDP socket. *)
Class Net := {
  ResolveUDPAddr : string -> string -> UDPAddr + error;
  LocalAddr : nat -> UDPAddr
}.

(** [net.ListenUDP(network, laddr)]: a socket that was not open before, or the
    platform's error. *)
Definition ListenUDP (net : string) (laddr : UDPAddr) : M (nat + error) :=
  fun w =>
    match w_refuse w with
    | Some e => (inr e, w)
    | None =>
        let sk := fresh (w_open w) in
        (inl sk, mkWorld (w_heap w) ({[sk]} ∪ w_open w) (w_refuse w) (w_trace w))
    end.

Section Listen.
Context `{Net}.

(** [func (s *Server) Addr()], answering with the address or an error. *)
Definition Addr (s : Server) : option UDPAddr * option error :=
  match s_conn s with
  | None => (None, Some ErrAddressNotAvailable)
  | Some c => (Some (LocalAddr c), None)
  end.

(** [func (s *Server) ListenAndServe() error], the method. *)
Definition Server_ListenAndServe (s : Server) (ins : list input) (w : World)
  : outcome * Server * World :=
  match ResolveUDPAddr (s_net s) (s_addrStr s) with
  | inr err => (Returned (wrapError (Some err) "resolving server address"), s, w)
  | inl addr =>
      let s := set_addr (Some addr) s in
      let '(r, w) := ListenUDP (s_net s) addr w in
      match r with
      | inr err => (Returned (wrapError (Some err) "opening network connection"), s, w)
      | inl conn =>
          match Serve s conn ins w with
          | (Returned err, s, w) => (Returned (wrapError err "serving tftp"), s, w)
          | (Blocked, s, w) => (Blocked, s, w)
          end
      end
  end.

(** [func ListenAndServe(addr string, rh ReadHandler, wh WriteHandler) error],
    the function of the package.  It answers with the server it made, if any,
    beside the result. *)
Definition ListenAndServe (addr : string) (rh : option ReadHandler) (wh : option WriteHandler)
    (ins : list input) (w : World) : outcome * option Server * World :=
  match NewServer addr [] with
  | (_, Some err) => (Returned (wrapError (Some err) "creaing new server"), None, w)
  | (None, None) => (Returned (Some (ErrPlatform "nil pointer dereference")), None, w)
  | (Some s, None) =>
      let s := set_rh rh s in
      let s := set_wh wh s in
      match Server_ListenAndServe s ins w with
      | (Returned err, s, w) => (Returned (wrapError err "starting server"), Some s, w)
      | (Blocked, s, w) => (Blocked, Some s, w)
      end
  end.
End Listen.

(** A platform without name service: ":port" resolves to the wildcard address,
    any other address does not resolve; socket [sk] is bound to port 49152+sk. *)
Module Loopback.

Definition port_of (a : string) : option Z :=
  match list_byte_of_string a with
  | x :: digits =>
      if Byte.eqb x x3a
      then match digits with
           | [] => None
           | _ :: _ => Wire.decimal digits 0
           end
      else None
  | [] => None
  end.

Definition resolve (network address : string) : UDPAddr + error :=
  match port_of address with
  | Some p => inl {| IP := []; Port := p; Zone := "" |}
  | None => inr (ErrPlatform "no such host")
  end.

Definition local (sk : nat) : UDPAddr :=
  {| IP := []; Port := 49152 + Z.of_nat sk; Zone := "" |}.

Definition net : Net := Build_Net resolve local.

End Loopback.

(** The server with the address of a host that does not resolve. *)
Definition server_nohost : Server :=
  mkServer "server" "udp" "tftp.example:69" None None false 10 (Some fs_read) None.

(** The world of [world0] with a two-byte array already on the heap. *)
Definition world_busy : World :=
  {| w_heap := {[ 7%nat := [x01; x02] ]}; w_open := {[ 3%nat ]};
     w_refuse := None; w_trace := [] |}.

(** ** Reading inputs and options *)

(** [Close] is the first thing the loop meets that is not a datagram. *)
Fixpoint close_met (ins : list input) : bool :=
  match ins with
  | Arrives _ _ :: rest => close_met rest
  | CloseCalled :: _ => true
  | _ => false
  end.

(** The error of the first failed read, when that comes before any [Close]. *)
Fixpoint read_failure (ins : list input) : option error :=
  match ins with
  | Arrives _ _ :: rest => read_failure rest
  | ReadFails e :: _ => Some e
  | _ => None
  end.

Definition is_arrival (i : input) : Prop :=
  match i with
  | Arrives _ _ => True
  | _ => False
  end.

(** The two options server.go defines, by name and argument. *)
Inductive option_spec : Type :=
| WithNet (net : string)
| WithRetransmit (i : Z).

Definition to_opt (o : option_spec) : ServerOpt :=
  match o with
  | WithNet net => ServerNet net
  | WithRetransmit i => ServerRetransmit i
  end.

Definition valid_spec (o : option_spec) : Prop :=
  match o with
  | WithNet net => net = "udp" \/ net = "udp4" \/ net = "udp6"
  | WithRetransmit i => 0 <= i
  end.

(** The argument of the last [ServerNet] ([ServerRetransmit]) of a list, or
    the default. *)
Definition last_net (os : list option_spec) (d : string) : string :=
  fold_left (fun acc o => match o with WithNet n => n | WithRetransmit _ => acc end) os d.

Definition last_retransmit (os : list option_spec) (d : Z) : Z :=
  fold_left (fun acc o => match o with WithRetransmit i => i | WithNet _ => acc end) os d.

(** The calls into handlers of a trace: handler and request. *)
Definition read_calls (evs : list event) : list (ReadHandler * readRequest) :=
  omap (fun e => match e with
                 | EvServeTFTP h r => Some (h, r)
                 | _ => None
                 end) evs.

Definition write_calls (evs : list event) : list (WriteHandler * writeRequest) :=
  omap (fun e => match e with
                 | EvReceiveTFTP h r => Some (h, r)
                 | _ => None
                 end) evs.

(** The write setups of a trace: connection and result. *)
Definition setups (evs : list event) : list (conn * option error) :=
  omap (fun e => match e with
                 | EvReadSetup c r => Some (c, r)
                 | _ => None
                 end) evs.

(** * Properties *)

(** ** The model at work *)

(** An RRQ served by the registered read handler: the handler gets the new
    connection (socket 4; the listener is socket 3) and the file name, and the
    connection is closed when it returns. *)
Example rrq_served :
  events_of (@dispatchRequest Wire.engine server_r client rrq_alpha) world0
  = [EvNewConn "udp" "" client (inl (opened world0 "" client));
     EvLog LvlDebug "New request from %v: %s";
     EvServeTFTP fs_read
       {| rr_conn := @configured Wire.engine server_r 4 client rrq_alpha;
          rr_name := "alpha" |};
     EvConnClose (@configured Wire.engine server_r 4 client rrq_alpha)].
Proof. reflexivity. Qed.

(** A WRQ whose blksize is out of range: the failed setup is stored in
    [conn.err] and the write handler is called all the same. *)
Example wrq_setup_fails :
  omap (fun e => match e with
                 | EvReceiveTFTP h w => Some (h, wr_name w, c_mode (wr_conn w), c_err (wr_conn w))
                 | _ => None
                 end)
       (events_of (@dispatchRequest Wire.engine server_rw client wrq_blksize7) world0)
  = [(fs_write, "beta", "octet", Some (ErrNegotiation "option out of range"))].
Proof. reflexivity. Qed.

(** Two datagrams, then [Close]: two goroutines are started, each on its own
    slice, and [Serve] returns nil. *)
Example serve_two_then_close :
  let '(r, s, w) := Serve server_r 3%nat
                      [Arrives rrq_alpha client; Arrives ack_1 client; CloseCalled] world0 in
  r = Returned None
  /\ s_close s = true
  /\ started (w_trace w) = [(client, 1%nat); (client, 2%nat)]
  /\ read_counts (w_trace w) = [14%nat; 4%nat]
  /\ elements (w_open w) = [].
Proof. vm_compute. repeat split. Qed.

(** ** NewServer and its options *)

Lemma applyOpts_app (pre rest : list ServerOpt) (s s' : Server) :
  applyOpts pre s = (Some s', None) ->
  applyOpts (pre ++ rest) s = applyOpts rest s'.
Proof.
  revert s. induction pre as [|o pre IH]; intros s Hpre; simpl in *.
  - by injection Hpre as ->.
  - destruct (o s) as [s1 [e|]]; [discriminate | by apply IH].
Qed.

Lemma applyOpts_total (opts : list ServerOpt) (s : Server) :
  (exists s', applyOpts opts s = (Some s', None))
  \/ (exists e, applyOpts opts s = (None, Some e)).
Proof.
  revert s. induction opts as [|o opts IH]; intros s; simpl.
  - left. by exists s.
  - destruct (o s) as [s1 [e|]]; [right; by exists e | apply IH].
Qed.

Lemma applyOpts_failed (opts : list ServerOpt) (s : Server) (e : error) :
  applyOpts opts s = (None, Some e) ->
  exists pre o post s' sx,
    opts = pre ++ o :: post /\ applyOpts pre s = (Some s', None) /\ o s' = (sx, Some e).
Proof.
  revert s. induction opts as [|o opts IH]; intros s Hrun; simpl in *; [discriminate|].
  destruct (o s) as [s1 [e'|]] eqn:Ho.
  - injection Hrun as ->. exists [], o, opts, s, s1. by repeat split.
  - destruct (IH _ Hrun) as (pre & o' & post & s' & sx & -> & Hpre & Hfail).
    exists (o :: pre), o', post, s', sx. repeat split; [|done]. simpl. by rewrite Ho.
Qed.

Lemma applyOpts_always (opts : list ServerOpt) (s : Server) :
  Forall always_succeeds opts -> exists s', applyOpts opts s = (Some s', None).
Proof.
  intros Hall. revert s. induction Hall as [|o opts Ho _ IH]; intros s; simpl.
  - by exists s.
  - specialize (Ho s). destruct (o s) as [s1 [e|]]; [discriminate | apply IH].
Qed.

Lemma ServerNet_rejects (net : string) (s : Server) :
  net <> "udp" -> net <> "udp4" -> net <> "udp6" ->
  ServerNet net s = (s, Some ErrInvalidNetwork).
Proof.
  intros H1 H2 H3. unfold ServerNet.
  apply String.eqb_neq in H1, H2, H3. by rewrite H1, H2, H3.
Qed.

Lemma ServerNet_accepts (net : string) (s : Server) :
  net = "udp" \/ net = "udp4" \/ net = "udp6" ->
  ServerNet net s = (set_net net s, None).
Proof. by intros [-> | [-> | ->]]. Qed.

Lemma ServerRetransmit_rejects (i : Z) (s : Server) :
  i < 0 -> ServerRetransmit i s = (s, Some ErrInvalidRetransmit).
Proof. intros Hi. unfold ServerRetransmit. by apply Z.ltb_lt in Hi as ->. Qed.

Lemma ServerRetransmit_accepts (i : Z) (s : Server) :
  0 <= i -> ServerRetransmit i s = (set_retransmit i s, None).
Proof. intros Hi. unfold ServerRetransmit. by apply Z.ltb_ge in Hi as ->. Qed.

(** C10.  NewServer answers with no server and the error of the first option
    that fails: an option that fails after options that all succeeded decides
    the result, and an error NewServer returns is always such an option's.
    ServerNet fails with ErrInvalidNetwork on every network string other than
    udp, udp4 and udp6 (and accepts these three); ServerRetransmit fails with
    ErrInvalidRetransmit on every negative limit.  When no option fails,
    NewServer answers with a server and no error; it never answers with both
    or with neither. *)
Theorem NewServer_first_failing_option :
  (forall addr pre o post s' sx e,
      NewServer addr pre = (Some s', None) -> o s' = (sx, Some e) ->
      NewServer addr (pre ++ o :: post) = (None, Some e))
  /\ (forall addr opts e,
         NewServer addr opts = (None, Some e) ->
         exists pre o post s' sx,
           opts = pre ++ o :: post /\ NewServer addr pre = (Some s', None)
           /\ o s' = (sx, Some e))
  /\ (forall net s,
         net <> "udp" -> net <> "udp4" -> net <> "udp6" ->
         ServerNet net s = (s, Some ErrInvalidNetwork))
  /\ (forall net s,
         net = "udp" \/ net = "udp4" \/ net = "udp6" ->
         ServerNet net s = (set_net net s, None))
  /\ (forall i s, i < 0 -> ServerRetransmit i s = (s, Some ErrInvalidRetransmit))
  /\ (forall addr opts,
         Forall always_succeeds opts -> exists s, NewServer addr opts = (Some s, None))
  /\ (forall addr opts,
         (exists s, NewServer addr opts = (Some s, None))
         \/ (exists e, NewServer addr opts = (None, Some e))).
Proof.
  repeat split.
  - intros addr pre o post s' sx e Hpre Hfail. unfold NewServer in *.
    rewrite (applyOpts_app _ _ _ _ Hpre). simpl. by rewrite Hfail.
  - intros addr opts e. apply applyOpts_failed.
  - apply ServerNet_rejects.
  - apply ServerNet_accepts.
  - apply ServerRetransmit_rejects.
  - intros addr opts. apply applyOpts_always.
  - intros addr opts. apply applyOpts_total.
Qed.

Lemma NewServer_first_failing_option_witness :
  NewServer ":69" [ServerRetransmit 3; ServerNet "tcp"; ServerRetransmit (-1)]
  = (None, Some ErrInvalidNetwork)
  /\ ServerNet "tcp" server0 = (server0, Some ErrInvalidNetwork)
  /\ ServerNet "udp6" server0 = (set_net "udp6" server0, None)
  /\ ServerRetransmit (-1) server0 = (server0, Some ErrInvalidRetransmit).
Proof.
  pose proof NewServer_first_failing_option as (Hfirst & _ & Hnet & Hok & Hre & _).
  split; [|split; [|split]].
  - apply (Hfirst ":69" [ServerRetransmit 3] (ServerNet "tcp") [ServerRetransmit (-1)]
                  (set_retransmit 3 (set_net "udp" (set_conn None
                     (mkServer "server" "udp" ":69" None None false 10 None None))))
                  (set_retransmit 3 (set_net "udp" (set_conn None
                     (mkServer "server" "udp" ":69" None None false 10 None None))))
                  ErrInvalidNetwork); reflexivity.
  - apply Hnet; discriminate.
  - apply Hok. right. right. reflexivity.
  - apply Hre. lia.
Defined.

(** ** dispatchRequest *)

Lemma new_events_app (w w' : World) (evs : list event) :
  w_trace w' = w_trace w ++ evs -> new_events w w' = evs.
Proof. unfold new_events. intros ->. by rewrite drop_app_length. Qed.

Lemma fresh_socket_closed (O : gset nat) : ({[fresh O]} ∪ O) ∖ {[fresh O]} = O.
Proof. pose proof (is_fresh O). set_solver. Qed.

Ltac run_dispatch :=
  unfold dispatchRequest, dispatchRequest_body, newConn, errorDefer, conn_Close,
    sendError, logf, emit, bind, ret; simpl.

Section DispatchFacts.
Context `{Engine}.
Implicit Types (s : Server) (addr : UDPAddr) (b : list byte) (w : World).

(** The platform refuses the socket: the error is logged, nothing else. *)
Lemma dispatch_refused s addr b w e :
  w_refuse w = Some e ->
  dispatchRequest s addr b w
  = (tt, mkWorld (w_heap w) (w_open w) (w_refuse w)
           (w_trace w ++ [EvNewConn (s_net s) "" addr (inr e);
                          EvLog LvlErr "Received error opening connection for new request: %v"])).
Proof.
  intros Hr. run_dispatch. rewrite Hr. simpl. by rewrite <- !app_assoc.
Qed.

(** The rest of [dispatchRequest] once the connection is open. *)
Lemma dispatch_opened s addr b w :
  w_refuse w = None ->
  dispatchRequest s addr b w
  = (let c0 := opened w "" addr in
     let w0 := mkWorld (w_heap w) ({[c_netConn c0]} ∪ w_open w) (w_refuse w)
                       (w_trace w ++ [EvNewConn (s_net s) "" addr (inl c0)]) in
     let '(c', w1) := dispatchRequest_body s addr b c0 w0 in
     errorDefer (conn_Close c') "error closing network connection in dispath" w1).
Proof. intros Hr. unfold dispatchRequest, newConn, bind. by rewrite Hr. Qed.

(** [dispatchRequest_body] only adds events; every connection it hands out is the
    one it was given, with the datagram and the server's retransmit limit. *)
Lemma dispatchRequest_body_frame s addr b (c : conn) w :
  exists evs c',
    dispatchRequest_body s addr b c w
    = (c', mkWorld (w_heap w) (w_open w) (w_refuse w) (w_trace w ++ evs))
    /\ Forall (fun e => forall c'', event_conn e = Some c'' ->
                 c_netConn c'' = c_netConn c /\ c_remoteAddr c'' = c_remoteAddr c
                 /\ c_retransmit c'' = s_retransmit s /\ c_rx c'' = b) (evs ++ [EvConnClose c'])
    /\ Forall (fun e => forall sk, event_socket e = Some sk -> sk = c_netConn c) evs.
Proof.
  unfold dispatchRequest_body, sendError, logf, emit, bind, ret. simpl.
  destruct (validate b) as [err|]; simpl;
    [|destruct (opcode b =? opCodeRRQ); simpl;
      [destruct (s_rh s) | destruct (opcode b =? opCodeWRQ);
                            [destruct (s_wh s); [destruct (readSetup _ _)|] |]]];
    simpl; rewrite <- ?app_assoc; simpl;
    eexists _, _; (split; [reflexivity|]);
    split; simpl;
    repeat (constructor; [simpl; intros ? ?; by simplify_eq/= |]); constructor.
Qed.

Lemma dispatch_malformed s addr b w err :
  w_refuse w = None -> validate b = Some err ->
  dispatchRequest s addr b w
  = (tt, mkWorld (w_heap w) (w_open w) (w_refuse w)
           (w_trace w ++ [EvNewConn (s_net s) "" addr (inl (opened w "" addr));
                          EvLog LvlDebug "Error decoding new request: %v";
                          EvConnClose (setBytes b (set_c_retransmit (s_retransmit s) (opened w "" addr)))])).
Proof.
  intros Hr Hv. run_dispatch. rewrite Hr. simpl. rewrite Hv. simpl.
  rewrite decide_True by set_solver. simpl.
  rewrite fresh_socket_closed. by rewrite <- !app_assoc.
Qed.

Lemma dispatch_unexpected s addr b w :
  w_refuse w = None -> validate b = None ->
  opcode b <> opCodeRRQ -> opcode b <> opCodeWRQ ->
  dispatchRequest s addr b w
  = (tt, mkWorld (w_heap w) (w_open w) (w_refuse w)
           (w_trace w ++ [EvNewConn (s_net s) "" addr (inl (opened w "" addr));
                          EvLog LvlDebug "New request from %v: %s";
                          EvLog LvlDebug "Unexpected Request";
                          EvConnClose (configured s (fresh (w_open w)) addr b)])).
Proof.
  intros Hr Hv Hrrq Hwrq. run_dispatch. rewrite Hr. simpl. rewrite Hv. simpl.
  apply Z.eqb_neq in Hrrq, Hwrq. rewrite Hrrq, Hwrq. simpl.
  rewrite decide_True by set_solver. simpl.
  rewrite fresh_socket_closed. by rewrite <- !app_assoc.
Qed.

Lemma dispatch_no_read_handler s addr b w :
  w_refuse w = None -> validate b = None -> opcode b = opCodeRRQ -> s_rh s = None ->
  dispatchRequest s addr b w
  = (tt, mkWorld (w_heap w) (w_open w) (w_refuse w)
           (w_trace w ++ [EvNewConn (s_net s) "" addr (inl (opened w "" addr));
                          EvLog LvlDebug "New request from %v: %s";
                          EvLog LvlDebug "No read handler registered.";
                          EvSendError (configured s (fresh (w_open w)) addr b)
                                      ErrCodeIllegalOperation
                                      "Server does not support read requests.";
                          EvConnClose (configured s (fresh (w_open w)) addr b)])).
Proof.
  intros Hr Hv Hop Hrh. run_dispatch. rewrite Hr. simpl. rewrite Hv. simpl.
  rewrite Hop, Hrh. simpl.
  rewrite decide_True by set_solver. simpl.
  rewrite fresh_socket_closed. by rewrite <- !app_assoc.
Qed.

Lemma dispatch_no_write_handler s addr b w :
  w_refuse w = None -> validate b = None -> opcode b = opCodeWRQ -> s_wh s = None ->
  dispatchRequest s addr b w
  = (tt, mkWorld (w_heap w) (w_open w) (w_refuse w)
           (w_trace w ++ [EvNewConn (s_net s) "" addr (inl (opened w "" addr));
                          EvLog LvlDebug "New request from %v: %s";
                          EvLog LvlDebug "No write handler registered.";
                          EvSendError (configured s (fresh (w_open w)) addr b)
                                      ErrCodeIllegalOperation
                                      "Server does not support write requests.";
                          EvConnClose (configured s (fresh (w_open w)) addr b)])).
Proof.
  intros Hr Hv Hop Hwh. run_dispatch. rewrite Hr. simpl. rewrite Hv. simpl.
  rewrite Hop, Hwh. simpl.
  rewrite decide_True by set_solver. simpl.
  rewrite fresh_socket_closed. by rewrite <- !app_assoc.
Qed.
End DispatchFacts.

Lemma events_of_eq {A} (m : M A) (w w' : World) (a : A) (evs : list event) :
  m w = (a, w') -> w_trace w' = w_trace w ++ evs -> events_of m w = evs.
Proof. intros Hm Htr. unfold events_of. rewrite Hm. by apply new_events_app. Qed.

(** With the connection open, [dispatchRequest] adds the [newConn] event, the
    events of the request, and the deferred close; it leaves the set of open
    sockets as it found it. *)
Lemma dispatch_opened_events {E : Engine} (s : Server) (addr : UDPAddr) (b : list byte)
    (w : World) :
  w_refuse w = None ->
  exists evs c',
    dispatchRequest s addr b w
    = (tt, mkWorld (w_heap w) (w_open w) (w_refuse w)
             (w_trace w ++ EvNewConn (s_net s) "" addr (inl (opened w "" addr))
                        :: evs ++ [EvConnClose c']))
    /\ Forall (fun e => forall c, event_conn e = Some c ->
                 c_netConn c = fresh (w_open w) /\ c_remoteAddr c = addr
                 /\ c_retransmit c = s_retransmit s /\ c_rx c = b)
              (evs ++ [EvConnClose c'])
    /\ Forall (fun e => forall sk, event_socket e = Some sk -> sk = fresh (w_open w)) evs.
Proof.
  intros Hr. rewrite dispatch_opened by done. cbv zeta.
  destruct (dispatchRequest_body_frame s addr b (opened w "" addr)
              (mkWorld (w_heap w) ({[c_netConn (opened w "" addr)]} ∪ w_open w) (w_refuse w)
                 (w_trace w ++ [EvNewConn (s_net s) "" addr (inl (opened w "" addr))])))
    as (evs & c' & -> & Hconn & Hsock).
  exists evs, c'. split; [|by split].
  assert (c_netConn c' = fresh (w_open w)) as Hsk.
  { pose proof (proj2 (proj1 (Forall_app _ _ _) Hconn)) as Hc'.
    pose proof (Forall_inv Hc') as Hc. by destruct (Hc c' eq_refl) as [-> _]. }
  unfold errorDefer, conn_Close, bind, ret. simpl.
  rewrite Hsk, decide_True by set_solver. simpl.
  rewrite fresh_socket_closed. by rewrite <- !app_assoc.
Qed.

(** C1.  Whatever datagram fails validation, [dispatchRequest] returns having
    called no handler and having made no call that sends a packet to the
    peer (no ERROR, no write setup); it leaves no socket open behind it. *)
Theorem malformed_request_dropped {E : Engine} (s : Server) (addr : UDPAddr)
    (b : list byte) (w : World) (err : error) :
  validate b = Some err ->
  Forall (fun e => is_handler_call e = false /\ may_send e = false)
         (events_of (dispatchRequest s addr b) w)
  /\ sent_errors (events_of (dispatchRequest s addr b) w) = []
  /\ w_open (snd (dispatchRequest s addr b w)) = w_open w.
Proof.
  intros Hv. destruct (w_refuse w) as [e|] eqn:Hr.
  - rewrite (events_of_eq _ _ _ _ _ (dispatch_refused s addr b w e Hr) eq_refl).
    rewrite (dispatch_refused s addr b w e Hr). by repeat constructor.
  - rewrite (events_of_eq _ _ _ _ _ (dispatch_malformed s addr b w err Hr Hv) eq_refl).
    rewrite (dispatch_malformed s addr b w err Hr Hv). by repeat constructor.
Qed.

Lemma malformed_request_dropped_witness :
  Forall (fun e => is_handler_call e = false /\ may_send e = false)
         (events_of (@dispatchRequest Wire.engine server_r
                       client rrq_cut) world0)
  /\ sent_errors (events_of (@dispatchRequest Wire.engine server_r
                               client rrq_cut) world0) = []
  /\ w_open (snd (@dispatchRequest Wire.engine server_r
                    client rrq_cut world0)) = w_open world0.
Proof.
  apply (@malformed_request_dropped Wire.engine server_r client
           rrq_cut world0 (ErrDecode "Corrupt request datagram")).
  reflexivity.
Defined.

(** C6.  A datagram that passes validation but is neither an RRQ nor a WRQ is
    dropped: no handler is called and no call is made that sends a packet to
    the source address. *)
Theorem unexpected_opcode_dropped {E : Engine} (s : Server) (addr : UDPAddr)
    (b : list byte) (w : World) :
  validate b = None -> opcode b <> opCodeRRQ -> opcode b <> opCodeWRQ ->
  Forall (fun e => is_handler_call e = false /\ may_send e = false)
         (events_of (dispatchRequest s addr b) w)
  /\ sent_errors (events_of (dispatchRequest s addr b) w) = []
  /\ w_open (snd (dispatchRequest s addr b w)) = w_open w.
Proof.
  intros Hv Hrrq Hwrq. destruct (w_refuse w) as [e|] eqn:Hr.
  - rewrite (events_of_eq _ _ _ _ _ (dispatch_refused s addr b w e Hr) eq_refl).
    rewrite (dispatch_refused s addr b w e Hr). by repeat constructor.
  - rewrite (events_of_eq _ _ _ _ _ (dispatch_unexpected s addr b w Hr Hv Hrrq Hwrq) eq_refl).
    rewrite (dispatch_unexpected s addr b w Hr Hv Hrrq Hwrq). by repeat constructor.
Qed.

Lemma unexpected_opcode_dropped_witness :
  Forall (fun e => is_handler_call e = false /\ may_send e = false)
         (events_of (@dispatchRequest Wire.engine
                       server_rw
                       client ack_1) world0)
  /\ sent_errors (events_of (@dispatchRequest Wire.engine
                               server_rw
                               client ack_1) world0) = []
  /\ w_open (snd (@dispatchRequest Wire.engine
                    server_rw
                    client ack_1 world0)) = w_open world0.
Proof.
  apply (@unexpected_opcode_dropped Wire.engine
           server_rw client ack_1 world0).
  - reflexivity.
  - vm_compute. discriminate.
  - vm_compute. discriminate.
Defined.

(** C2 (amended).  When the per-transfer connection has been opened, a valid
    RRQ met with no read handler makes the server send exactly one ERROR, code
    4, message "Server does not support read requests." (the message ends in a
    full stop), on the new connection, then close that connection, calling no
    handler; a valid WRQ met with no write handler is answered the same way
    with "Server does not support write requests.".  When [newConn] fails,
    whatever the datagram and the handlers, the error is logged and nothing
    is sent: no ERROR, no handler call, no socket left open. *)
Theorem unsupported_request_refused {E : Engine} (s : Server) (addr : UDPAddr)
    (b : list byte) (w : World) :
  (w_refuse w = None -> validate b = None ->
   (opcode b = opCodeRRQ -> s_rh s = None ->
      events_of (dispatchRequest s addr b) w
      = [EvNewConn (s_net s) "" addr (inl (opened w "" addr));
         EvLog LvlDebug "New request from %v: %s";
         EvLog LvlDebug "No read handler registered.";
         EvSendError (configured s (fresh (w_open w)) addr b) 4
                     "Server does not support read requests.";
         EvConnClose (configured s (fresh (w_open w)) addr b)])
   /\ (opcode b = opCodeWRQ -> s_wh s = None ->
       events_of (dispatchRequest s addr b) w
       = [EvNewConn (s_net s) "" addr (inl (opened w "" addr));
          EvLog LvlDebug "New request from %v: %s";
          EvLog LvlDebug "No write handler registered.";
          EvSendError (configured s (fresh (w_open w)) addr b) 4
                      "Server does not support write requests.";
          EvConnClose (configured s (fresh (w_open w)) addr b)])
   /\ (fresh (w_open w) ∉ w_open w)
   /\ ((opcode b = opCodeRRQ /\ s_rh s = None) \/ (opcode b = opCodeWRQ /\ s_wh s = None) ->
       (fresh (w_open w) ∉ w_open (snd (dispatchRequest s addr b w)))))
  /\ (forall e, w_refuse w = Some e ->
        events_of (dispatchRequest s addr b) w
        = [EvNewConn (s_net s) "" addr (inr e);
           EvLog LvlErr "Received error opening connection for new request: %v"]
        /\ sent_errors (events_of (dispatchRequest s addr b) w) = []
        /\ Forall (fun ev => is_handler_call ev = false /\ may_send ev = false)
                  (events_of (dispatchRequest s addr b) w)
        /\ w_open (snd (dispatchRequest s addr b w)) = w_open w).
Proof.
  split.
  - intros Hr Hv. split; [|split; [|split]].
    + intros Hop Hrh.
      by apply (events_of_eq _ _ _ _ _ (dispatch_no_read_handler s addr b w Hr Hv Hop Hrh)).
    + intros Hop Hwh.
      by apply (events_of_eq _ _ _ _ _ (dispatch_no_write_handler s addr b w Hr Hv Hop Hwh)).
    + apply is_fresh.
    + intros [[Hop Hh] | [Hop Hh]].
      * rewrite (dispatch_no_read_handler s addr b w Hr Hv Hop Hh). apply is_fresh.
      * rewrite (dispatch_no_write_handler s addr b w Hr Hv Hop Hh). apply is_fresh.
  - intros e Hr.
    rewrite (events_of_eq _ _ _ _ _ (dispatch_refused s addr b w e Hr) eq_refl).
    rewrite (dispatch_refused s addr b w e Hr).
    split; [done|]. split; [done|]. split; [by repeat constructor | done].
Qed.

Lemma unsupported_request_refused_witness :
  sent_errors (events_of (@dispatchRequest Wire.engine server0 client rrq_alpha) world0)
  = [(4, "Server does not support read requests.")]
  /\ sent_errors (events_of (@dispatchRequest Wire.engine server0 client wrq_beta) world0)
     = [(4, "Server does not support write requests.")]
  /\ events_of (@dispatchRequest Wire.engine server0 client rrq_alpha) world_refusing
     = [EvNewConn "udp" "" client (inr (ErrPlatform "too many open files"));
        EvLog LvlErr "Received error opening connection for new request: %v"]
  /\ sent_errors (events_of (@dispatchRequest Wire.engine server0 client wrq_beta)
                    world_refusing) = [].
Proof.
  destruct (proj1 (@unsupported_request_refused Wire.engine server0 client rrq_alpha world0)
              eq_refl eq_refl) as (Hread & _).
  destruct (proj1 (@unsupported_request_refused Wire.engine server0 client wrq_beta world0)
              eq_refl eq_refl) as (_ & Hwrite & _).
  destruct (proj2 (@unsupported_request_refused Wire.engine server0 client rrq_alpha
                     world_refusing) (ErrPlatform "too many open files") eq_refl)
    as (Hlog & _).
  destruct (proj2 (@unsupported_request_refused Wire.engine server0 client wrq_beta
                     world_refusing) (ErrPlatform "too many open files") eq_refl)
    as (_ & Hnone & _).
  split; [|split; [|split]].
  - rewrite Hread; reflexivity.
  - rewrite Hwrite; reflexivity.
  - exact Hlog.
  - exact Hnone.
Defined.

(** C2 as stated fails: on a valid RRQ (WRQ) with no read (write) handler the
    one ERROR sent carries the message with its final full stop, not the
    message the claim quotes; and when the platform refuses the per-transfer
    socket no ERROR is sent at all. *)
Lemma unsupported_request_counterexample :
  Wire.validate rrq_alpha = None /\ Wire.opcode rrq_alpha = opCodeRRQ /\ s_rh server0 = None
  /\ Wire.validate wrq_beta = None /\ Wire.opcode wrq_beta = opCodeWRQ /\ s_wh server0 = None
  /\ sent_errors (events_of (@dispatchRequest Wire.engine server0 client rrq_alpha) world0)
     = [(4, "Server does not support read requests.")]
  /\ ~ In (4, "Server does not support read requests")
          (sent_errors (events_of (@dispatchRequest Wire.engine server0 client rrq_alpha) world0))
  /\ sent_errors (events_of (@dispatchRequest Wire.engine server0 client wrq_beta) world0)
     = [(4, "Server does not support write requests.")]
  /\ ~ In (4, "Server does not support write requests")
          (sent_errors (events_of (@dispatchRequest Wire.engine server0 client wrq_beta) world0))
  /\ sent_errors (events_of (@dispatchRequest Wire.engine server0 client rrq_alpha)
                    world_refusing) = [].
Proof.
  repeat split; try reflexivity; vm_compute; intros [Heq | []]; discriminate Heq.
Qed.

(** C5 (amended).  For every request, [dispatchRequest] first asks [newConn]
    for a connection toward the requesting client's address.  When the
    platform refuses the socket, the error is logged and the request is
    dropped with no connection opened.  Otherwise the connection is on a
    socket that was not open before (so it is not the listener), its peer is
    the client, every later call of the request works on that socket and on
    no socket that was open before, and the last thing done is to close the
    connection, which leaves the set of open sockets as it was. *)
Theorem per_request_connection {E : Engine} (s : Server) (addr : UDPAddr)
    (b : list byte) (w : World) :
  (forall e, w_refuse w = Some e ->
     events_of (dispatchRequest s addr b) w
     = [EvNewConn (s_net s) "" addr (inr e);
        EvLog LvlErr "Received error opening connection for new request: %v"]
     /\ w_open (snd (dispatchRequest s addr b w)) = w_open w)
  /\ (w_refuse w = None ->
      (fresh (w_open w) ∉ w_open w)
      /\ head (events_of (dispatchRequest s addr b) w)
         = Some (EvNewConn (s_net s) "" addr (inl (opened w "" addr)))
      /\ c_netConn (opened w "" addr) = fresh (w_open w)
      /\ c_remoteAddr (opened w "" addr) = addr
      /\ (forall e c, e ∈ events_of (dispatchRequest s addr b) w ->
            event_conn e = Some c ->
            c_netConn c = fresh (w_open w) /\ c_remoteAddr c = addr)
      /\ (forall e l, e ∈ events_of (dispatchRequest s addr b) w ->
            event_socket e = Some l -> l = fresh (w_open w) /\ l ∉ w_open w)
      /\ (exists c, last (events_of (dispatchRequest s addr b) w) = Some (EvConnClose c)
                    /\ c_netConn c = fresh (w_open w))
      /\ w_open (snd (dispatchRequest s addr b w)) = w_open w).
Proof.
  split.
  - intros e Hr. rewrite (dispatch_refused s addr b w e Hr). split; [|done].
    by apply (events_of_eq _ _ _ _ _ (dispatch_refused s addr b w e Hr)).
  - intros Hr.
    destruct (dispatch_opened_events s addr b w Hr) as (evs & c' & Hrun & Hconn & Hsock).
    rewrite (events_of_eq _ _ _ _ _ Hrun eq_refl). rewrite Hrun.
    pose proof (is_fresh (w_open w)) as Hfresh.
    assert (c_netConn c' = fresh (w_open w)) as Hsk.
    { pose proof (proj2 (proj1 (Forall_app _ _ _) Hconn)) as Hc'.
      pose proof (Forall_inv Hc') as Hc. by destruct (Hc c' eq_refl) as [-> _]. }
    assert (forall e l, e ∈ EvNewConn (s_net s) "" addr (inl (opened w "" addr))
                              :: evs ++ [EvConnClose c'] ->
                        event_socket e = Some l -> l = fresh (w_open w)) as Hsocks.
    { intros e l Hin Hev.
      apply elem_of_cons in Hin as [-> | Hin]; [by injection Hev as <-|].
      apply elem_of_app in Hin as [Hin | Hin].
      - rewrite Forall_forall in Hsock. by apply (Hsock e Hin).
      - apply list_elem_of_singleton in Hin as ->. simpl in Hev. by injection Hev as <-. }
    split; [done|]. split; [done|]. split; [done|]. split; [done|].
    split; [|split; [|split; [|done]]].
    + intros e c Hin Hev. rewrite Forall_forall in Hconn.
      apply elem_of_cons in Hin as [-> | Hin]; [done|].
      destruct (Hconn e Hin c Hev) as (Hc1 & Hc2 & _). by split.
    + intros e l Hin Hev. rewrite (Hsocks e l Hin Hev). by split.
    + exists c'. split; [|done].
      change (EvNewConn (s_net s) "" addr (inl (opened w "" addr)) :: evs ++ [EvConnClose c'])
        with ((EvNewConn (s_net s) "" addr (inl (opened w "" addr)) :: evs) ++ [EvConnClose c']).
      apply last_snoc.
Qed.

Lemma per_request_connection_witness :
  events_of (@dispatchRequest Wire.engine server_r client rrq_alpha)
            world_refusing
  = [EvNewConn "udp" "" client (inr (ErrPlatform "too many open files"));
     EvLog LvlErr "Received error opening connection for new request: %v"]
  /\ (exists c,
        last (events_of (@dispatchRequest Wire.engine server_r
                           client rrq_alpha) world0) = Some (EvConnClose c)
        /\ c_netConn c = fresh (w_open world0)).
Proof.
  split.
  - apply (proj1 (@per_request_connection Wire.engine server_r
                    client rrq_alpha world_refusing)
             (ErrPlatform "too many open files") eq_refl).
  - apply (proj2 (@per_request_connection Wire.engine server_r
                    client rrq_alpha world0) eq_refl).
Defined.

(** C5 as stated fails: with a handler registered and a well-formed RRQ, a
    platform that refuses the socket makes [dispatchRequest] open and close
    no connection; the same request in a world that grants the socket is
    served on socket 4, the listener being socket 3. *)
Lemma per_request_connection_counterexample :
  Wire.validate rrq_alpha = None
  /\ events_of (@dispatchRequest Wire.engine server_r client rrq_alpha)
               world_refusing
     = [EvNewConn "udp" "" client (inr (ErrPlatform "too many open files"));
        EvLog LvlErr "Received error opening connection for new request: %v"]
  /\ omap event_conn
          (events_of (@dispatchRequest Wire.engine server_r
                        client rrq_alpha) world_refusing) = []
  /\ omap event_socket
          (events_of (@dispatchRequest Wire.engine server_r
                        client rrq_alpha) world0) = [4; 4; 4]%nat.
Proof. repeat split; reflexivity. Qed.

(** C7.  A server made with no options has retransmit limit 10.
    [ServerRetransmit i] fails with ErrInvalidRetransmit for every negative
    [i], so that [NewServer] yields no server, and sets the server's limit to
    [i] otherwise.  Every connection that [dispatchRequest] hands to the
    engine, to a handler or to the deferred close carries the server's limit,
    and a request whose connection opens hands out at least one. *)
Theorem retransmit_budget_configured :
  (forall addr, exists s, NewServer addr [] = (Some s, None) /\ s_retransmit s = 10)
  /\ (forall i s, i < 0 -> ServerRetransmit i s = (s, Some ErrInvalidRetransmit))
  /\ (forall i addr, i < 0 ->
        NewServer addr [ServerRetransmit i] = (None, Some ErrInvalidRetransmit))
  /\ (forall i addr, 0 <= i ->
        exists s, NewServer addr [ServerRetransmit i] = (Some s, None)
                  /\ s_retransmit s = i)
  /\ (forall (E : Engine) s addr b w e c,
        e ∈ events_of (dispatchRequest s addr b) w ->
        event_conn e = Some c -> c_retransmit c = s_retransmit s)
  /\ (forall (E : Engine) s addr b w,
        w_refuse w = None ->
        exists c, EvConnClose c ∈ events_of (dispatchRequest s addr b) w
                  /\ c_retransmit c = s_retransmit s).
Proof.
  split; [|split; [|split; [|split; [|split]]]].
  - intros addr. eexists. split; reflexivity.
  - apply ServerRetransmit_rejects.
  - intros i addr Hi. unfold NewServer. simpl.
    by rewrite ServerRetransmit_rejects.
  - intros i addr Hi. unfold NewServer. simpl.
    rewrite ServerRetransmit_accepts by done. eexists. split; reflexivity.
  - intros E s addr b w e c Hin Hev.
    destruct (w_refuse w) as [err|] eqn:Hr.
    + rewrite (events_of_eq _ _ _ _ _ (dispatch_refused s addr b w err Hr) eq_refl) in Hin.
      apply elem_of_cons in Hin as [-> | Hin]; [discriminate|].
      apply list_elem_of_singleton in Hin as ->. discriminate.
    + destruct (dispatch_opened_events s addr b w Hr) as (evs & c' & Hrun & Hconn & _).
      rewrite (events_of_eq _ _ _ _ _ Hrun eq_refl) in Hin.
      apply elem_of_cons in Hin as [-> | Hin]; [discriminate|].
      rewrite Forall_forall in Hconn. by apply (Hconn e Hin c).
  - intros E s addr b w Hr.
    destruct (dispatch_opened_events s addr b w Hr) as (evs & c' & Hrun & Hconn & _).
    rewrite (events_of_eq _ _ _ _ _ Hrun eq_refl).
    exists c'. split.
    + apply elem_of_cons. right. apply elem_of_app. right. apply list_elem_of_singleton. done.
    + pose proof (Forall_inv (proj2 (proj1 (Forall_app _ _ _) Hconn))) as Hc.
      by apply (Hc c' eq_refl).
Qed.

Lemma retransmit_budget_configured_witness :
  NewServer ":69" [ServerRetransmit (-1)] = (None, Some ErrInvalidRetransmit)
  /\ (exists s, NewServer ":69" [ServerRetransmit 3] = (Some s, None) /\ s_retransmit s = 3)
  /\ (exists c,
        EvConnClose c ∈ events_of (@dispatchRequest Wire.engine
                                     (set_wh (Some fs_write) (set_retransmit 3 server0))
                                     client wrq_blksize7) world0
        /\ c_retransmit c = 3).
Proof.
  pose proof retransmit_budget_configured as (_ & _ & Hneg & Hpos & _ & Hdisp).
  split; [|split].
  - apply Hneg. lia.
  - apply Hpos. lia.
  - apply (Hdisp Wire.engine (set_wh (Some fs_write) (set_retransmit 3 server0))
             client wrq_blksize7 world0). reflexivity.
Defined.

(** ** Serve and Close *)

Lemma Serve_loop_closed (s : Server) (conn buf : nat) (ins : list input) (w : World) :
  conn ∉ w_open w -> Serve_loop s conn buf ins w = readFailed s conn ErrNetClosing w.
Proof. intros Hc. destruct ins; simpl; by rewrite decide_False. Qed.

Lemma Serve_loop_arrives (s : Server) (conn buf : nat) (p : list byte) (a : UDPAddr)
    (rest : list input) (w : World) :
  conn ∈ w_open w ->
  Serve_loop s conn buf (Arrives p a :: rest) w
  = Serve_loop s conn buf rest (received conn buf p a w).
Proof. intros Hc. simpl. by rewrite decide_True. Qed.

Lemma received_open (conn buf : nat) (p : list byte) (a : UDPAddr) (w : World) :
  w_open (received conn buf p a w) = w_open w.
Proof. reflexivity. Qed.

Lemma Serve_loop_arrivals (s : Server) (conn buf : nat) (ds : list (list byte * UDPAddr))
    (rest : list input) (w : World) :
  conn ∈ w_open w ->
  exists w', Serve_loop s conn buf (arrivals ds ++ rest) w = Serve_loop s conn buf rest w'
             /\ w_open w' = w_open w.
Proof.
  revert w. induction ds as [|[p a] ds IH]; intros w Hc; simpl.
  - by exists w.
  - rewrite decide_True by done.
    destruct (IH (received conn buf p a w)) as (w' & Hrun & Hopen).
    { by rewrite received_open. }
    exists w'. split; [exact Hrun | by rewrite Hopen].
Qed.

Lemma Close_open (s : Server) (sk : nat) (w : World) :
  s_conn s = Some sk -> sk ∈ w_open w ->
  Close s w = ((None, set_close true s),
               mkWorld (w_heap w) (w_open w ∖ {[sk]}) (w_refuse w)
                       (w_trace w ++ [EvSocketClose sk])).
Proof.
  intros Hs Hsk. unfold Close, UDPConn_Close, bind, ret. simpl.
  rewrite Hs. by rewrite decide_True.
Qed.

Lemma Serve_enters_loop (s : Server) (conn : nat) (ins : list input) (w : World) :
  has_handler s ->
  Serve s conn ins w
  = Serve_loop (set_conn (Some conn) s) conn (fresh (dom (w_heap w))) ins
               (set_heap (<[fresh (dom (w_heap w)) := replicate 1024 x00]> (w_heap w)) w).
Proof.
  intros [Hh | Hh]; unfold Serve; destruct (s_rh s), (s_wh s); done.
Qed.

Lemma take_min_1024 (p : list byte) :
  take (Nat.min (length p) 1024) p = take 1024 p
  /\ Nat.min (length p) 1024 = length (take 1024 p).
Proof.
  rewrite length_take. split; [|lia].
  destruct (decide (length p <= 1024)%nat) as [Hle | Hgt].
  - rewrite Nat.min_l by done. rewrite !take_ge by lia. done.
  - by rewrite Nat.min_r by lia.
Qed.

Lemma received_spec (conn buf : nat) (p : list byte) (a : UDPAddr) (w : World) :
  length (deref w buf) = 1024%nat -> buf ∈ dom (w_heap w) ->
  exists l,
    (l ∉ dom (w_heap w)) /\ l <> buf
    /\ received conn buf p a w
       = mkWorld (<[l := take 1024 p]>
                    (<[buf := take 1024 p ++ drop (length (take 1024 p)) (deref w buf)]>
                       (w_heap w)))
                 (w_open w) (w_refuse w)
                 (w_trace w ++ [EvReadFromUDP conn (length (take 1024 p)) (Some a) None;
                                EvGo a l]).
Proof.
  intros Hlen Hbuf.
  destruct (take_min_1024 p) as [Htake Hn].
  unfold received, ReadFromUDP_ok, make, copy, emit, set_heap. simpl.
  rewrite Hlen, Htake, Hn.
  set (h1 := <[buf := take 1024 p ++ drop (length (take 1024 p)) (deref w buf)]> (w_heap w)).
  set (l := fresh (dom h1)).
  assert (l ∉ dom h1) as Hl by apply is_fresh.
  assert (dom h1 = {[buf]} ∪ dom (w_heap w)) as Hdom by apply dom_insert_L.
  assert (l <> buf) as Hne by set_solver.
  exists l. split; [set_solver|]. split; [done|].
  set (old := deref w buf) in *.
  assert (h1 !! buf = Some (take 1024 p ++ drop (length (take 1024 p)) old))
    as Hb by apply lookup_insert_eq.
  unfold deref. simpl.
  rewrite !lookup_insert_eq. rewrite !lookup_insert_ne by done. rewrite !Hb. simpl.
  rewrite length_replicate, length_app, length_drop, Hlen.
  assert (length (take 1024 p) <= 1024)%nat as Hle by (rewrite length_take; lia).
  rewrite Nat.min_l by lia.
  rewrite take_app_length, drop_replicate, Nat.sub_diag. simpl.
  rewrite app_nil_r, insert_insert_eq. by rewrite <- app_assoc.
Qed.

Lemma started_app (evs evs' : list event) : started (evs ++ evs') = started evs ++ started evs'.
Proof. apply omap_app. Qed.

Lemma handed_off_heap (evs : list event) (w w' : World) :
  (forall l, l ∈ map snd (started evs) -> deref w' l = deref w l) ->
  handed_off evs w' = handed_off evs w.
Proof.
  unfold handed_off. intros Hsame. induction (started evs) as [|[a l] tl IH]; simpl; [done|].
  rewrite Hsame by (simpl; left). f_equal. apply IH.
  intros l' Hl'. apply Hsame. simpl. by right.
Qed.

Lemma loop_inv_heap (buf : nat) (evs evs' : list event) (w w' : World) :
  w_heap w' = w_heap w -> started evs' = started evs ->
  loop_inv buf evs w -> loop_inv buf evs' w'.
Proof.
  unfold loop_inv, deref. intros -> ->. done.
Qed.

Lemma loop_inv_received (conn buf : nat) (p : list byte) (a : UDPAddr) (evs : list event)
    (w : World) :
  loop_inv buf evs w ->
  exists l,
    w_trace (received conn buf p a w)
    = w_trace w ++ [EvReadFromUDP conn (length (take 1024 p)) (Some a) None; EvGo a l]
    /\ loop_inv buf (evs ++ [EvReadFromUDP conn (length (take 1024 p)) (Some a) None; EvGo a l])
                 (received conn buf p a w)
    /\ handed_off (evs ++ [EvReadFromUDP conn (length (take 1024 p)) (Some a) None; EvGo a l])
                  (received conn buf p a w)
       = handed_off evs w ++ [(a, take 1024 p)].
Proof.
  intros (Hlen & Hbuf & Hnd & Hlive).
  destruct (received_spec conn buf p a w Hlen Hbuf) as (l & Hl & Hne & ->).
  exists l. split; [done|].
  assert (forall l', l' ∈ map snd (started evs) ->
            deref (mkWorld (<[l := take 1024 p]>
                    (<[buf := take 1024 p ++ drop (length (take 1024 p)) (deref w buf)]>
                       (w_heap w))) (w_open w) (w_refuse w)
                    (w_trace w ++ [EvReadFromUDP conn (length (take 1024 p)) (Some a) None;
                                   EvGo a l])) l' = deref w l') as Hold.
  { intros l' Hl'. destruct (Hlive l' Hl') as [Hdom Hnb].
    unfold deref. simpl. rewrite !lookup_insert_ne; [done | done | ].
    intros ->. done. }
  split.
  - unfold loop_inv. rewrite started_app. simpl. rewrite map_app. simpl.
    split; [|split; [|split]].
    + set (old := deref w buf) in *. unfold deref. simpl.
      rewrite lookup_insert_ne, lookup_insert_eq by done. simpl.
      rewrite length_app, length_drop, Hlen, length_take. lia.
    + rewrite !dom_insert_L. set_solver.
    + apply NoDup_app. repeat split; [done | | apply NoDup_singleton].
      intros l' Hl' ->%list_elem_of_singleton. by destruct (Hlive l Hl').
    + intros l' Hin. rewrite !dom_insert_L.
      apply elem_of_app in Hin as [Hin | ->%list_elem_of_singleton].
      * destruct (Hlive l' Hin). split; [set_solver | done].
      * split; [set_solver | done].
  - unfold handed_off in *. rewrite started_app. simpl. rewrite map_app. simpl. f_equal.
    + apply handed_off_heap. exact Hold.
    + unfold deref. simpl. by rewrite lookup_insert_eq.
Qed.

Lemma readFailed_world (s : Server) (sk : nat) (e : error) (w : World) :
  snd (readFailed s sk e w)
  = mkWorld (w_heap w) (w_open w) (w_refuse w)
            (w_trace w ++ [EvReadFromUDP sk 0 None (Some e)]).
Proof. unfold readFailed. simpl. by destruct (s_close s). Qed.

Lemma readFailed_result (s : Server) (sk : nat) (e : error) (w : World) :
  fst (fst (readFailed s sk e w))
  = if s_close s then Returned None
    else Returned (Some (ErrWrapped e "reading from conn")).
Proof. unfold readFailed. simpl. by destruct (s_close s). Qed.

(** The loop on an open listener: it only adds events, keeps the heap in
    order, and what the goroutines it started find in their slices is the
    datagrams it took in, each cut to 1024 bytes. *)
Lemma Serve_loop_handoff (s : Server) (conn buf : nat) (ins : list input) :
  s_conn s = Some conn ->
  forall (w : World) (evs0 : list event),
    conn ∈ w_open w -> loop_inv buf evs0 w ->
    exists evs,
      w_trace (snd (Serve_loop s conn buf ins w)) = w_trace w ++ evs
      /\ loop_inv buf (evs0 ++ evs) (snd (Serve_loop s conn buf ins w))
      /\ handed_off (evs0 ++ evs) (snd (Serve_loop s conn buf ins w))
         = handed_off evs0 w ++ map delivered (accepted ins)
      /\ read_counts evs = map (fun d => length (take 1024 (fst d))) (accepted ins).
Proof.
  intros Hs. induction ins as [|[p a | e | ] rest IH]; intros w evs0 Hc Hinv.
  - exists []. simpl. rewrite decide_True by done. simpl. by rewrite !app_nil_r.
  - rewrite Serve_loop_arrives by done.
    destruct (loop_inv_received conn buf p a evs0 w Hinv) as (l & Htr & Hinv' & Hoff).
    destruct (IH (received conn buf p a w)
                 (evs0 ++ [EvReadFromUDP conn (length (take 1024 p)) (Some a) None; EvGo a l]))
      as (evs & Htr' & Hinv'' & Hoff' & Hcnt); [by rewrite received_open | done |].
    exists ([EvReadFromUDP conn (length (take 1024 p)) (Some a) None; EvGo a l] ++ evs).
    rewrite !app_assoc. rewrite <- Htr. split; [done|]. split; [done|]. split.
    + rewrite Hoff', Hoff. simpl. by rewrite <- app_assoc.
    + simpl. by rewrite Hcnt.
  - exists [EvReadFromUDP conn 0 None (Some e)].
    simpl. rewrite decide_True by done. rewrite readFailed_world. simpl.
    split; [done|]. split; [|split; [|done]].
    + apply (loop_inv_heap buf evs0 _ w); [done | | done].
      rewrite started_app. simpl. by rewrite app_nil_r.
    + unfold handed_off. rewrite started_app. simpl. by rewrite !app_nil_r.
  - exists [EvSocketClose conn; EvReadFromUDP conn 0 None (Some ErrNetClosing)].
    simpl. rewrite decide_True by done. rewrite (Close_open s conn w Hs Hc).
    rewrite Serve_loop_closed by (simpl; set_solver).
    rewrite readFailed_world. simpl. rewrite <- app_assoc. simpl.
    split; [done|]. split; [|split; [|done]].
    + apply (loop_inv_heap buf evs0 _ w); [done | | done].
      rewrite started_app. simpl. by rewrite app_nil_r.
    + unfold handed_off. rewrite started_app. simpl. by rewrite !app_nil_r.
Qed.

Lemma Serve_loop_result (conn buf : nat) (ins : list input) :
  forall (s : Server) (w : World),
    fst (fst (Serve_loop s conn buf ins w)) <> Returned (Some ErrNoRegisteredHandlers).
Proof.
  induction ins as [|[p a | e | ] rest IH]; intros s w; simpl;
    (destruct (decide (conn ∈ w_open w));
     [|rewrite readFailed_result; by destruct (s_close s)]).
  - done.
  - apply IH.
  - rewrite readFailed_result. by destruct (s_close s).
  - destruct (Close s w) as [[err s'] w']. apply IH.
Qed.

Lemma loop_inv_start (w : World) :
  loop_inv (fresh (dom (w_heap w))) []
    (set_heap (<[fresh (dom (w_heap w)) := replicate 1024 x00]> (w_heap w)) w).
Proof.
  unfold loop_inv, deref, set_heap. cbn [w_heap].
  rewrite lookup_insert_eq, dom_insert_L.
  split; [apply length_replicate|]. split; [set_solver|]. split; [constructor|].
  intros l Hl. by apply elem_of_nil in Hl.
Qed.

Lemma Serve_handoff (s : Server) (conn : nat) (ins : list input) (w : World) :
  has_handler s -> conn ∈ w_open w ->
  exists evs,
    w_trace (snd (Serve s conn ins w)) = w_trace w ++ evs
    /\ loop_inv (fresh (dom (w_heap w))) evs (snd (Serve s conn ins w))
    /\ handed_off evs (snd (Serve s conn ins w)) = map delivered (accepted ins)
    /\ read_counts evs = map (fun d => length (take 1024 (fst d))) (accepted ins).
Proof.
  intros Hh Hc. rewrite Serve_enters_loop by done.
  apply (Serve_loop_handoff (set_conn (Some conn) s) conn (fresh (dom (w_heap w))) ins
           eq_refl
           (set_heap (<[fresh (dom (w_heap w)) := replicate 1024 x00]> (w_heap w)) w)
           [] Hc (loop_inv_start w)).
Qed.

(** C9.  With neither handler registered, [Serve] returns
    ErrNoRegisteredHandlers at once: nothing is read, the server and the world
    are untouched.  With a handler registered it records the socket, makes the
    1024-byte buffer and runs the receive loop: it never returns
    ErrNoRegisteredHandlers, on an open listener it is blocked in the read
    while nothing arrives, and the first thing it does with an arriving
    datagram is to read it. *)
Theorem Serve_needs_handler (s : Server) (conn : nat) (ins : list input) (w : World) :
  (s_rh s = None -> s_wh s = None ->
     Serve s conn ins w = (Returned (Some ErrNoRegisteredHandlers), s, w)
     /\ new_events w (snd (Serve s conn ins w)) = [])
  /\ (has_handler s ->
      Serve s conn ins w
      = Serve_loop (set_conn (Some conn) s) conn (fresh (dom (w_heap w))) ins
                   (set_heap (<[fresh (dom (w_heap w)) := replicate 1024 x00]> (w_heap w)) w)
      /\ fst (fst (Serve s conn ins w)) <> Returned (Some ErrNoRegisteredHandlers)
      /\ (conn ∈ w_open w -> ins = [] ->
          Serve s conn ins w
          = (Blocked, set_conn (Some conn) s,
             set_heap (<[fresh (dom (w_heap w)) := replicate 1024 x00]> (w_heap w)) w))
      /\ (conn ∈ w_open w -> forall p a rest, ins = Arrives p a :: rest ->
            head (new_events w (snd (Serve s conn ins w)))
            = Some (EvReadFromUDP conn (Nat.min (length p) 1024) (Some a) None))).
Proof.
  split.
  - intros Hrh Hwh. unfold Serve. rewrite Hrh, Hwh. split; [done|].
    unfold new_events. simpl. apply drop_all.
  - intros Hh. rewrite Serve_enters_loop by done.
    split; [done|]. split; [apply Serve_loop_result|]. split.
    + intros Hc ->. simpl. by rewrite decide_True.
    + intros Hc p a rest ->. rewrite Serve_loop_arrives by done.
      destruct (loop_inv_received conn (fresh (dom (w_heap w))) p a [] _ (loop_inv_start w))
        as (l & Htr & Hinv & _).
      destruct (Serve_loop_handoff (set_conn (Some conn) s) conn (fresh (dom (w_heap w))) rest
                  eq_refl
                  (received conn (fresh (dom (w_heap w))) p a
                     (set_heap (<[fresh (dom (w_heap w)) := replicate 1024 x00]> (w_heap w)) w))
                  _ Hc Hinv) as (evs & Htr' & _).
      rewrite Htr in Htr'. cbn [w_trace set_heap] in Htr'. rewrite <- app_assoc in Htr'.
      rewrite (new_events_app _ _ _ Htr'). cbn [app head].
      by rewrite (proj2 (take_min_1024 p)).
Qed.

Lemma Serve_needs_handler_witness :
  Serve server0 3%nat [Arrives rrq_alpha client] world0
  = (Returned (Some ErrNoRegisteredHandlers), server0, world0)
  /\ head (new_events world0
             (snd (Serve server_r 3%nat [Arrives rrq_alpha client] world0)))
     = Some (EvReadFromUDP 3%nat (Nat.min (length rrq_alpha) 1024) (Some client) None).
Proof.
  split.
  - apply (proj1 (Serve_needs_handler server0 3%nat [Arrives rrq_alpha client] world0));
      reflexivity.
  - destruct (proj2 (Serve_needs_handler server_r 3%nat
                       [Arrives rrq_alpha client] world0)) as (_ & _ & _ & Hhead).
    + left. discriminate.
    + apply Hhead with (rest := []).
      * apply (bool_decide_eq_true_1 (3%nat ∈ w_open world0)). reflexivity.
      * reflexivity.
Defined.

Lemma accepted_arrivals (ds : list (list byte * UDPAddr)) (more : list input) :
  accepted (arrivals ds ++ more) = ds ++ accepted more.
Proof. induction ds as [|[p a] ds IH]; simpl; [done | by rewrite IH]. Qed.

Lemma accepted_only_arrivals (ds : list (list byte * UDPAddr)) :
  accepted (arrivals ds) = ds.
Proof. induction ds as [|[p a] ds IH]; simpl; [done | by rewrite IH]. Qed.

(** C4.  While a handler is registered and the listener is open, whatever the
    loop meets: the slice handed to each goroutine holds, in the final heap,
    exactly the first n bytes of its datagram, n being the count the read
    returned (the datagram's length, at most 1024); the slices are pairwise
    distinct arrays and none is the receive buffer.  So what was handed over
    for the first datagrams is the same whatever is received after them. *)
Theorem handoff_is_private_copy (s : Server) (conn : nat) (w : World) :
  has_handler s -> conn ∈ w_open w ->
  (forall ins,
      handed_off (new_events w (snd (Serve s conn ins w))) (snd (Serve s conn ins w))
      = map delivered (accepted ins)
      /\ read_counts (new_events w (snd (Serve s conn ins w)))
         = map (fun d => length (take 1024 (fst d))) (accepted ins)
      /\ NoDup (map snd (started (new_events w (snd (Serve s conn ins w)))))
      /\ (forall l, l ∈ map snd (started (new_events w (snd (Serve s conn ins w)))) ->
            l <> fresh (dom (w_heap w))))
  /\ (forall ds more,
        take (length ds)
             (handed_off (new_events w (snd (Serve s conn (arrivals ds ++ more) w)))
                         (snd (Serve s conn (arrivals ds ++ more) w)))
        = handed_off (new_events w (snd (Serve s conn (arrivals ds) w)))
                     (snd (Serve s conn (arrivals ds) w))).
Proof.
  intros Hh Hc.
  assert (forall ins,
             handed_off (new_events w (snd (Serve s conn ins w))) (snd (Serve s conn ins w))
             = map delivered (accepted ins)) as Hmain.
  { intros ins. destruct (Serve_handoff s conn ins w Hh Hc) as (evs & Htr & _ & Hoff & _).
    by rewrite (new_events_app _ _ _ Htr). }
  split.
  - intros ins. split; [apply Hmain|].
    destruct (Serve_handoff s conn ins w Hh Hc) as (evs & Htr & Hinv & _ & Hcnt).
    rewrite (new_events_app _ _ _ Htr).
    destruct Hinv as (_ & _ & Hnd & Hlive).
    split; [done|]. split; [done|].
    intros l Hl. by destruct (Hlive l Hl).
  - intros ds more. rewrite !Hmain, accepted_arrivals, accepted_only_arrivals, map_app.
    rewrite <- (length_map delivered ds). apply take_app_length.
Qed.

Lemma handoff_is_private_copy_witness :
  handed_off (new_events world0
                (snd (Serve server_r 3%nat
                        [Arrives rrq_alpha client; Arrives ack_1 client; CloseCalled] world0)))
             (snd (Serve server_r 3%nat
                     [Arrives rrq_alpha client; Arrives ack_1 client; CloseCalled] world0))
  = [(client, rrq_alpha); (client, ack_1)].
Proof.
  destruct (handoff_is_private_copy server_r 3%nat world0)
    as [Hmain _].
  - left. discriminate.
  - apply (bool_decide_eq_true_1 (3%nat ∈ w_open world0)). reflexivity.
  - apply (Hmain [Arrives rrq_alpha client; Arrives ack_1 client; CloseCalled]).
Defined.

Lemma Close_sets_flag (s : Server) (w : World) :
  s_close (snd (fst (Close s w))) = true
  /\ (forall sk, s_conn s = Some sk -> sk ∉ w_open (snd (Close s w))).
Proof.
  unfold Close, UDPConn_Close, bind, ret. cbn [s_conn set_close].
  destruct (s_conn s) as [sk|]; [|by split].
  destruct (decide (sk ∈ w_open w)); (split; [done|]); intros ? [= <-]; simpl; set_solver.
Qed.

(** C3.  [Close] sets the close flag and closes the listener socket.  While
    [Serve] runs on an open listener with a handler registered, after any
    number of datagrams: when [Close] is called, the read that follows fails
    and [Serve] returns nil; a read that fails while the flag is set makes
    [Serve] return nil; a read that fails with error [e] while the flag is
    unset makes [Serve] return [e] wrapped with "reading from conn". *)
Theorem Close_ends_Serve_quietly (s : Server) (conn : nat) (w : World) :
  has_handler s -> conn ∈ w_open w ->
  (forall s0 w0,
      s_close (snd (fst (Close s0 w0))) = true
      /\ (forall sk, s_conn s0 = Some sk -> sk ∉ w_open (snd (Close s0 w0))))
  /\ (forall ds rest,
        fst (Serve s conn (arrivals ds ++ CloseCalled :: rest) w)
        = (Returned None, set_close true (set_conn (Some conn) s)))
  /\ (forall ds e rest,
        s_close s = true ->
        fst (fst (Serve s conn (arrivals ds ++ ReadFails e :: rest) w)) = Returned None)
  /\ (forall ds e rest,
        s_close s = false ->
        fst (fst (Serve s conn (arrivals ds ++ ReadFails e :: rest) w))
        = Returned (Some (ErrWrapped e "reading from conn"))).
Proof.
  intros Hh Hc. split; [apply Close_sets_flag|].
  assert (forall ds rest, exists w',
             Serve s conn (arrivals ds ++ rest) w
             = Serve_loop (set_conn (Some conn) s) conn (fresh (dom (w_heap w))) rest w'
             /\ conn ∈ w_open w') as Hloop.
  { intros ds rest. rewrite Serve_enters_loop by done.
    destruct (Serve_loop_arrivals (set_conn (Some conn) s) conn (fresh (dom (w_heap w))) ds rest
                (set_heap (<[fresh (dom (w_heap w)) := replicate 1024 x00]> (w_heap w)) w) Hc)
      as (w' & Hrun & Hopen).
    exists w'. split; [done | by rewrite Hopen]. }
  split; [|split].
  - intros ds rest. destruct (Hloop ds (CloseCalled :: rest)) as (w' & -> & Hc').
    simpl. rewrite decide_True by done.
    rewrite (Close_open (set_conn (Some conn) s) conn w' eq_refl Hc').
    rewrite Serve_loop_closed by (simpl; set_solver). reflexivity.
  - intros ds e rest Hflag. destruct (Hloop ds (ReadFails e :: rest)) as (w' & -> & Hc').
    simpl. rewrite decide_True by done. rewrite readFailed_result. simpl. by rewrite Hflag.
  - intros ds e rest Hflag. destruct (Hloop ds (ReadFails e :: rest)) as (w' & -> & Hc').
    simpl. rewrite decide_True by done. rewrite readFailed_result. simpl. by rewrite Hflag.
Qed.

Lemma Close_ends_Serve_quietly_witness :
  fst (Serve server_r 3%nat
         [Arrives rrq_alpha client; CloseCalled; Arrives ack_1 client] world0)
  = (Returned None, set_close true (set_conn (Some 3%nat) server_r))
  /\ fst (fst (Serve server_r 3%nat
                 [Arrives rrq_alpha client; ReadFails (ErrPlatform "network is down")] world0))
     = Returned (Some (ErrWrapped (ErrPlatform "network is down") "reading from conn")).
Proof.
  destruct (Close_ends_Serve_quietly server_r 3%nat world0)
    as (_ & Hclose & _ & Herr).
  - left. discriminate.
  - apply (bool_decide_eq_true_1 (3%nat ∈ w_open world0)). reflexivity.
  - split.
    + apply (Hclose [(rrq_alpha, client)] [Arrives ack_1 client]).
    + apply (Herr [(rrq_alpha, client)] (ErrPlatform "network is down") []). reflexivity.
Defined.

(** * Further properties of server.go *)

(** ** dispatchRequest: the requests that are served *)

Lemma fresh_in_opened (O : gset nat) : fresh O ∈ {[fresh O]} ∪ O.
Proof. apply elem_of_union_l, elem_of_singleton. reflexivity. Qed.

Lemma dispatch_read_served {E : Engine} (s : Server) (addr : UDPAddr) (b : list byte)
    (w : World) (h : ReadHandler) :
  w_refuse w = None -> validate b = None -> opcode b = opCodeRRQ -> s_rh s = Some h ->
  dispatchRequest s addr b w
  = (tt, mkWorld (w_heap w) (w_open w) (w_refuse w)
           (w_trace w ++ [EvNewConn (s_net s) "" addr (inl (opened w "" addr));
                          EvLog LvlDebug "New request from %v: %s";
                          EvServeTFTP h {| rr_conn := configured s (fresh (w_open w)) addr b;
                                           rr_name := filename b |};
                          EvConnClose (configured s (fresh (w_open w)) addr b)])).
Proof.
  intros Hr Hv Hop Hrh. run_dispatch. rewrite Hr. simpl. rewrite Hv. simpl.
  rewrite Hop, Hrh. simpl.
  rewrite decide_True by apply fresh_in_opened. simpl.
  rewrite fresh_socket_closed. by rewrite <- !app_assoc.
Qed.

Lemma dispatch_write_served {E : Engine} (s : Server) (addr : UDPAddr) (b : list byte)
    (w : World) (h : WriteHandler) :
  w_refuse w = None -> validate b = None -> opcode b = opCodeWRQ -> s_wh s = Some h ->
  dispatchRequest s addr b w
  = (tt, mkWorld (w_heap w) (w_open w) (w_refuse w)
           (w_trace w ++ [EvNewConn (s_net s) "" addr (inl (opened w "" addr));
                          EvLog LvlDebug "New request from %v: %s";
                          EvLog LvlTrace "performing write setup";
                          EvReadSetup (configured s (fresh (w_open w)) addr b)
                                      (readSetup (configured s (fresh (w_open w)) addr b) true);
                          EvReceiveTFTP h
                            {| wr_conn := set_c_err
                                            (readSetup (configured s (fresh (w_open w)) addr b) true)
                                            (configured s (fresh (w_open w)) addr b);
                               wr_name := filename b |};
                          EvConnClose (set_c_err
                                         (readSetup (configured s (fresh (w_open w)) addr b) true)
                                         (configured s (fresh (w_open w)) addr b))])).
Proof.
  intros Hr Hv Hop Hwh. run_dispatch. rewrite Hr. simpl. rewrite Hv. simpl.
  rewrite Hop, Hwh. simpl.
  unfold configured, set_c_mode, setBytes, set_c_retransmit, set_c_err. simpl.
  destruct (readSetup _ true) as [e|]; simpl;
    rewrite decide_True by apply fresh_in_opened; simpl;
    rewrite fresh_socket_closed; by rewrite <- !app_assoc.
Qed.

(** X1.  A valid RRQ that finds a read handler registered, on a connection
    that opened: the handler is called once, with the file name of the
    datagram and a connection toward the client that carries the datagram, its
    transfer mode and the server's retransmit limit; no ERROR is sent and no
    write setup is run, whether or not a write handler is registered; the
    connection is closed after the handler returns. *)
Theorem rrq_goes_to_read_handler {E : Engine} (s : Server) (addr : UDPAddr)
    (b : list byte) (w : World) (h : ReadHandler) :
  w_refuse w = None -> validate b = None -> opcode b = opCodeRRQ ->
  read_calls (events_of (dispatchRequest (RegisterReadHandler (Some h) s) addr b) w)
  = [(h, {| rr_conn := {| c_netConn := fresh (w_open w); c_remoteAddr := addr;
                          c_mode := mode b; c_retransmit := s_retransmit s;
                          c_rx := b; c_err := None |};
            rr_name := filename b |})]
  /\ write_calls (events_of (dispatchRequest (RegisterReadHandler (Some h) s) addr b) w) = []
  /\ sent_errors (events_of (dispatchRequest (RegisterReadHandler (Some h) s) addr b) w) = []
  /\ setups (events_of (dispatchRequest (RegisterReadHandler (Some h) s) addr b) w) = []
  /\ last (events_of (dispatchRequest (RegisterReadHandler (Some h) s) addr b) w)
     = Some (EvConnClose (configured s (fresh (w_open w)) addr b)).
Proof.
  intros Hr Hv Hop.
  rewrite (events_of_eq _ _ _ _ _
             (dispatch_read_served (RegisterReadHandler (Some h) s) addr b w h Hr Hv Hop eq_refl)
             eq_refl).
  by repeat split.
Qed.

Lemma rrq_goes_to_read_handler_witness :
  read_calls (events_of (@dispatchRequest Wire.engine (RegisterReadHandler (Some fs_read) server0)
                           client rrq_alpha) world0)
  = [(fs_read, {| rr_conn := {| c_netConn := 4; c_remoteAddr := client; c_mode := "octet";
                                c_retransmit := 10; c_rx := rrq_alpha; c_err := None |};
                  rr_name := "alpha" |})].
Proof.
  apply (@rrq_goes_to_read_handler Wire.engine server0 client rrq_alpha world0 fs_read);
    reflexivity.
Defined.

(** X2.  A valid WRQ that finds a write handler registered, on a connection
    that opened: the write setup is run once, before the handler; the handler
    is then called once whatever the setup answered, and the connection it
    gets has the setup's error in [err] (nil when the setup succeeded); no
    ERROR is sent by [dispatchRequest] itself and the read handler is not
    called. *)
Theorem wrq_goes_to_write_handler {E : Engine} (s : Server) (addr : UDPAddr)
    (b : list byte) (w : World) (h : WriteHandler) :
  w_refuse w = None -> validate b = None -> opcode b = opCodeWRQ ->
  setups (events_of (dispatchRequest (RegisterWriteHandler (Some h) s) addr b) w)
  = [(configured s (fresh (w_open w)) addr b,
      readSetup (configured s (fresh (w_open w)) addr b) true)]
  /\ write_calls (events_of (dispatchRequest (RegisterWriteHandler (Some h) s) addr b) w)
     = [(h, {| wr_conn := {| c_netConn := fresh (w_open w); c_remoteAddr := addr;
                             c_mode := mode b; c_retransmit := s_retransmit s; c_rx := b;
                             c_err := readSetup (configured s (fresh (w_open w)) addr b) true |};
               wr_name := filename b |})]
  /\ read_calls (events_of (dispatchRequest (RegisterWriteHandler (Some h) s) addr b) w) = []
  /\ sent_errors (events_of (dispatchRequest (RegisterWriteHandler (Some h) s) addr b) w) = []
  /\ (exists pre post,
        events_of (dispatchRequest (RegisterWriteHandler (Some h) s) addr b) w
        = pre ++ EvReadSetup (configured s (fresh (w_open w)) addr b)
                   (readSetup (configured s (fresh (w_open w)) addr b) true)
              :: EvReceiveTFTP h
                   {| wr_conn := set_c_err (readSetup (configured s (fresh (w_open w)) addr b) true)
                                           (configured s (fresh (w_open w)) addr b);
                      wr_name := filename b |}
              :: post).
Proof.
  intros Hr Hv Hop.
  rewrite (events_of_eq _ _ _ _ _
             (dispatch_write_served (RegisterWriteHandler (Some h) s) addr b w h Hr Hv Hop eq_refl)
             eq_refl).
  repeat split.
  eexists [_; _; _], [_]. reflexivity.
Qed.

Lemma wrq_goes_to_write_handler_witness :
  write_calls (events_of (@dispatchRequest Wire.engine (RegisterWriteHandler (Some fs_write) server0)
                            client wrq_blksize7) world0)
  = [(fs_write, {| wr_conn := {| c_netConn := 4; c_remoteAddr := client; c_mode := "octet";
                                 c_retransmit := 10; c_rx := wrq_blksize7;
                                 c_err := Some (ErrNegotiation "option out of range") |};
                   wr_name := "beta" |})].
Proof.
  apply (@wrq_goes_to_write_handler Wire.engine server0 client wrq_blksize7 world0 fs_write);
    reflexivity.
Defined.

(** What a call of [dispatchRequest] shows of handler calls, ERRORs and write
    setups, by the case the request falls in. *)
Lemma dispatch_summary {E : Engine} (s : Server) (addr : UDPAddr) (b : list byte) (w : World) :
  (read_calls (events_of (dispatchRequest s addr b) w),
   write_calls (events_of (dispatchRequest s addr b) w),
   sent_errors (events_of (dispatchRequest s addr b) w),
   setups (events_of (dispatchRequest s addr b) w))
  = match w_refuse w, validate b with
    | None, None =>
        if opcode b =? opCodeRRQ then
          match s_rh s with
          | Some h => ([(h, {| rr_conn := configured s (fresh (w_open w)) addr b;
                               rr_name := filename b |})], [], [], [])
          | None => ([], [], [(4, "Server does not support read requests.")], [])
          end
        else if opcode b =? opCodeWRQ then
          match s_wh s with
          | Some h =>
              ([],
               [(h, {| wr_conn := set_c_err
                                    (readSetup (configured s (fresh (w_open w)) addr b) true)
                                    (configured s (fresh (w_open w)) addr b);
                       wr_name := filename b |})],
               [],
               [(configured s (fresh (w_open w)) addr b,
                 readSetup (configured s (fresh (w_open w)) addr b) true)])
          | None => ([], [], [(4, "Server does not support write requests.")], [])
          end
        else ([], [], [], [])
    | _, _ => ([], [], [], [])
    end.
Proof.
  destruct (w_refuse w) as [e|] eqn:Hr.
  { by rewrite (events_of_eq _ _ _ _ _ (dispatch_refused s addr b w e Hr) eq_refl). }
  destruct (validate b) as [err|] eqn:Hv.
  { by rewrite (events_of_eq _ _ _ _ _ (dispatch_malformed s addr b w err Hr Hv) eq_refl). }
  destruct (opcode b =? opCodeRRQ) eqn:Hrrq.
  { apply Z.eqb_eq in Hrrq. destruct (s_rh s) as [h|] eqn:Hrh.
    - by rewrite (events_of_eq _ _ _ _ _ (dispatch_read_served s addr b w h Hr Hv Hrrq Hrh) eq_refl).
    - by rewrite (events_of_eq _ _ _ _ _ (dispatch_no_read_handler s addr b w Hr Hv Hrrq Hrh) eq_refl). }
  apply Z.eqb_neq in Hrrq.
  destruct (opcode b =? opCodeWRQ) eqn:Hwrq.
  { apply Z.eqb_eq in Hwrq. destruct (s_wh s) as [h|] eqn:Hwh.
    - by rewrite (events_of_eq _ _ _ _ _ (dispatch_write_served s addr b w h Hr Hv Hwrq Hwh) eq_refl).
    - by rewrite (events_of_eq _ _ _ _ _ (dispatch_no_write_handler s addr b w Hr Hv Hwrq Hwh) eq_refl). }
  apply Z.eqb_neq in Hwrq.
  by rewrite (events_of_eq _ _ _ _ _ (dispatch_unexpected s addr b w Hr Hv Hrrq Hwrq) eq_refl).
Qed.

Ltac dispatch_cases s addr b w :=
  let Hsum := fresh "Hsum" in
  let Hsum1 := fresh "Hsum" in
  let Hsum2 := fresh "Hsum" in
  let Hsum3 := fresh "Hsum" in
  let Hsum4 := fresh "Hsum" in
  pose proof (dispatch_summary s addr b w) as Hsum;
  destruct (w_refuse w) eqn:?;
  [| destruct (validate b) eqn:?;
     [| destruct (opcode b =? opCodeRRQ) eqn:?;
        [destruct (s_rh s) eqn:?
        | destruct (opcode b =? opCodeWRQ) eqn:?; [destruct (s_wh s) eqn:? |]]]];
  injection Hsum as Hsum1 Hsum2 Hsum3 Hsum4;
  rewrite ?Hsum1, ?Hsum2, ?Hsum3, ?Hsum4; clear Hsum1 Hsum2 Hsum3 Hsum4.

(** X3.  Whatever the datagram, the server and the platform, one call of
    [dispatchRequest] gives the request at most one answer: the calls into
    handlers and the ERRORs sent number at most one together; the write setup
    runs at most once, and only together with a call of the write handler. *)
Theorem one_answer_per_request {E : Engine} (s : Server) (addr : UDPAddr)
    (b : list byte) (w : World) :
  (length (read_calls (events_of (dispatchRequest s addr b) w))
   + length (write_calls (events_of (dispatchRequest s addr b) w))
   + length (sent_errors (events_of (dispatchRequest s addr b) w)) <= 1)%nat
  /\ length (setups (events_of (dispatchRequest s addr b) w))
     = length (write_calls (events_of (dispatchRequest s addr b) w)).
Proof. dispatch_cases s addr b w; simpl; split; lia. Qed.

(** X4.  [dispatchRequest] sends an ERROR for one reason only: the connection
    opened, the datagram is valid, and it is an RRQ with no read handler
    registered or a WRQ with no write handler registered.  The code is always
    4 and the message is the one of the missing handler. *)
Theorem error_only_for_missing_handler {E : Engine} (s : Server) (addr : UDPAddr)
    (b : list byte) (w : World) (code : Z) (msg : string) :
  (code, msg) ∈ sent_errors (events_of (dispatchRequest s addr b) w) ->
  w_refuse w = None /\ validate b = None /\ code = 4
  /\ ((opcode b = opCodeRRQ /\ s_rh s = None
       /\ msg = "Server does not support read requests.")
      \/ (opcode b = opCodeWRQ /\ s_wh s = None
          /\ msg = "Server does not support write requests.")).
Proof.
  dispatch_cases s addr b w; intros Hin;
    try (by apply elem_of_nil in Hin);
    apply list_elem_of_singleton in Hin; injection Hin as -> ->;
    repeat split; try done.
  - left. split; [by apply Z.eqb_eq | done].
  - right. split; [by apply Z.eqb_eq | done].
Qed.

Lemma error_only_for_missing_handler_witness :
  w_refuse world0 = None /\ Wire.validate wrq_beta = None /\ 4 = 4
  /\ ((Wire.opcode wrq_beta = opCodeRRQ /\ s_rh server_r = None
       /\ "Server does not support write requests."
          = "Server does not support read requests.")
      \/ (Wire.opcode wrq_beta = opCodeWRQ /\ s_wh server_r = None
          /\ "Server does not support write requests."
             = "Server does not support write requests.")).
Proof.
  apply (@error_only_for_missing_handler Wire.engine server_r client wrq_beta world0 4
           "Server does not support write requests.").
  vm_compute. apply list_elem_of_here.
Defined.

(** X5.  A handler is called only for its own kind of request: a call of a
    read handler means that this is the registered read handler and that the
    datagram is a valid RRQ; a call of a write handler means that this is the
    registered write handler and that the datagram is a valid WRQ that is not
    an RRQ.  Either way the connection had opened, and the handler is given the
    file name of the datagram. *)
Theorem handler_called_for_its_request {E : Engine} (s : Server) (addr : UDPAddr)
    (b : list byte) (w : World) :
  (forall h r, (h, r) ∈ read_calls (events_of (dispatchRequest s addr b) w) ->
     s_rh s = Some h /\ opcode b = opCodeRRQ /\ validate b = None /\ w_refuse w = None
     /\ rr_name r = filename b /\ c_remoteAddr (rr_conn r) = addr)
  /\ (forall h r, (h, r) ∈ write_calls (events_of (dispatchRequest s addr b) w) ->
        s_wh s = Some h /\ opcode b = opCodeWRQ /\ opcode b <> opCodeRRQ
        /\ validate b = None /\ w_refuse w = None
        /\ wr_name r = filename b /\ c_remoteAddr (wr_conn r) = addr).
Proof.
  dispatch_cases s addr b w; split; intros hh rq Hin;
    try (by apply elem_of_nil in Hin);
    apply list_elem_of_singleton in Hin; injection Hin as -> ->;
    repeat split; try done; try (by apply Z.eqb_eq); by apply Z.eqb_neq.
Qed.

Lemma handler_called_for_its_request_witness :
  s_wh server_rw = Some fs_write /\ Wire.opcode wrq_beta = opCodeWRQ
  /\ Wire.opcode wrq_beta <> opCodeRRQ
  /\ Wire.validate wrq_beta = None /\ w_refuse world0 = None
  /\ wr_name {| wr_conn := @configured Wire.engine server_rw 4 client wrq_beta;
                wr_name := "beta" |} = Wire.filename wrq_beta
  /\ c_remoteAddr (wr_conn {| wr_conn := @configured Wire.engine server_rw 4 client wrq_beta;
                              wr_name := "beta" |}) = client.
Proof.
  apply (proj2 (@handler_called_for_its_request Wire.engine server_rw client wrq_beta world0)
           fs_write).
  vm_compute. apply list_elem_of_here.
Defined.

(** ** NewServer with the options of server.go *)

Lemma set_net_twice (n m : string) (s : Server) : set_net n (set_net m s) = set_net n s.
Proof. reflexivity. Qed.

Lemma applyOpts_known (os : list option_spec) (s : Server) :
  Forall valid_spec os ->
  applyOpts (map to_opt os) s
  = (Some (set_retransmit (last_retransmit os (s_retransmit s))
             (set_net (last_net os (s_net s)) s)), None).
Proof.
  intros Hall. revert s. induction Hall as [|o os Ho _ IH]; intros s.
  - by destruct s.
  - destruct o as [n | i]; simpl in *.
    + rewrite (ServerNet_accepts n s Ho). by rewrite IH.
    + rewrite (ServerRetransmit_accepts i s Ho). by rewrite IH.
Qed.

(** X6.  With any list of [ServerNet] and [ServerRetransmit] options whose
    arguments are acceptable, [NewServer] succeeds, and of each kind the last
    one given wins: the network is that of the last [ServerNet] (udp when
    there is none), the retransmit limit that of the last [ServerRetransmit]
    (10 when there is none).  The address is the one given; the server has no
    connection, is not closed and has no handler. *)
Theorem NewServer_last_option_wins (addr : string) (os : list option_spec) :
  Forall valid_spec os ->
  NewServer addr (map to_opt os)
  = (Some {| s_log := "server";
             s_net := last_net os "udp";
             s_addrStr := addr;
             s_addr := None;
             s_conn := None;
             s_close := false;
             s_retransmit := last_retransmit os 10;
             s_rh := None;
             s_wh := None |}, None).
Proof. intros Hall. unfold NewServer. by rewrite applyOpts_known. Qed.

Lemma NewServer_last_option_wins_witness :
  NewServer ":69" (map to_opt [WithRetransmit 2; WithNet "udp6"; WithRetransmit 5; WithNet "udp4"])
  = (Some (mkServer "server" "udp4" ":69" None None false 5 None None), None).
Proof.
  apply (NewServer_last_option_wins ":69"
           [WithRetransmit 2; WithNet "udp6"; WithRetransmit 5; WithNet "udp4"]).
  repeat constructor; simpl; auto; lia.
Defined.

(** ** Serve: when it returns, and what it leaves behind *)

Lemma Serve_loop_outcome (conn buf : nat) (ins : list input) :
  forall (s : Server) (w : World),
    s_conn s = Some conn -> conn ∈ w_open w ->
    fst (Serve_loop s conn buf ins w)
    = (if close_met ins then (Returned None, set_close true s)
       else match read_failure ins with
            | Some e => (if s_close s then Returned None
                         else Returned (Some (ErrWrapped e "reading from conn")), s)
            | None => (Blocked, s)
            end)
    /\ w_open (snd (Serve_loop s conn buf ins w))
       = (if close_met ins then w_open w ∖ {[conn]} else w_open w)
    /\ w_refuse (snd (Serve_loop s conn buf ins w)) = w_refuse w.
Proof.
  induction ins as [|[p a | e | ] rest IH]; intros s w Hs Hc.
  - simpl. by rewrite decide_True.
  - rewrite Serve_loop_arrives by done. simpl.
    destruct (IH s (received conn buf p a w) Hs) as (Hres & Hopen & Hrefuse);
      [by rewrite received_open|].
    by rewrite Hres, Hopen, Hrefuse.
  - simpl. rewrite decide_True by done. unfold readFailed. simpl.
    by destruct (s_close s).
  - simpl. rewrite decide_True by done. rewrite (Close_open s conn w Hs Hc).
    rewrite Serve_loop_closed by (simpl; set_solver). by unfold readFailed.
Qed.

Lemma Serve_outcome (s : Server) (conn : nat) (ins : list input) (w : World) :
  has_handler s -> conn ∈ w_open w ->
  fst (Serve s conn ins w)
  = (if close_met ins then (Returned None, set_close true (set_conn (Some conn) s))
     else match read_failure ins with
          | Some e => (if s_close s then Returned None
                       else Returned (Some (ErrWrapped e "reading from conn")),
                       set_conn (Some conn) s)
          | None => (Blocked, set_conn (Some conn) s)
          end)
  /\ w_open (snd (Serve s conn ins w))
     = (if close_met ins then w_open w ∖ {[conn]} else w_open w)
  /\ w_refuse (snd (Serve s conn ins w)) = w_refuse w.
Proof.
  intros Hh Hc. rewrite Serve_enters_loop by done.
  apply (Serve_loop_outcome conn (fresh (dom (w_heap w))) ins (set_conn (Some conn) s)
           (set_heap (<[fresh (dom (w_heap w)) := replicate 1024 x00]> (w_heap w)) w)
           eq_refl Hc).
Qed.

Lemma only_arrivals (ins : list input) :
  Forall is_arrival ins <-> close_met ins = false /\ read_failure ins = None.
Proof.
  induction ins as [|[p a | e | ] rest IH]; simpl.
  - split; [done | constructor].
  - rewrite Forall_cons, IH. simpl. tauto.
  - rewrite Forall_cons. simpl. split; [tauto | intros [_ ?]; discriminate].
  - rewrite Forall_cons. simpl. split; [tauto | intros [? _]; discriminate].
Qed.

Lemma Serve_blocked_on_nothing (s : Server) (conn : nat) (w : World) :
  has_handler s -> conn ∈ w_open w -> fst (fst (Serve s conn [] w)) = Blocked.
Proof. intros Hh Hc. by destruct (Serve_outcome s conn [] w Hh Hc) as (-> & _). Qed.

(** X7.  With a handler registered and the listener open, [Serve] does not
    leave its loop on its own: it is still in the read exactly when everything
    it has met so far is a datagram; only a failed read, or [Close], makes it
    return. *)
Theorem Serve_runs_until_read_fails (s : Server) (conn : nat) (ins : list input) (w : World) :
  has_handler s -> conn ∈ w_open w ->
  (fst (fst (Serve s conn ins w)) = Blocked <-> Forall is_arrival ins).
Proof.
  intros Hh Hc. destruct (Serve_outcome s conn ins w Hh Hc) as (-> & _).
  rewrite only_arrivals.
  destruct (close_met ins); [split; [discriminate | intros [? _]; discriminate]|].
  destruct (read_failure ins); [|done].
  split; [destruct (s_close s); discriminate | intros [_ ?]; discriminate].
Qed.

Lemma Serve_runs_until_read_fails_witness :
  fst (fst (Serve server_r 3%nat [Arrives rrq_alpha client; Arrives ack_1 client] world0))
  = Blocked.
Proof.
  apply (Serve_runs_until_read_fails server_r 3%nat
           [Arrives rrq_alpha client; Arrives ack_1 client] world0).
  - left. discriminate.
  - apply (bool_decide_eq_true_1 (3%nat ∈ w_open world0)). reflexivity.
  - repeat constructor.
Defined.

(** X8.  With a handler registered and the listener open: when [Serve]
    returns nil, the server's close flag is set; when it returns an error, the
    flag is not set and the error is the error of the read that failed,
    wrapped with "reading from conn". *)
Theorem Serve_result_tells_why (s : Server) (conn : nat) (ins : list input) (w : World) :
  has_handler s -> conn ∈ w_open w ->
  (fst (fst (Serve s conn ins w)) = Returned None ->
     s_close (snd (fst (Serve s conn ins w))) = true)
  /\ (forall err, fst (fst (Serve s conn ins w)) = Returned (Some err) ->
        s_close (snd (fst (Serve s conn ins w))) = false
        /\ exists e, read_failure ins = Some e /\ err = ErrWrapped e "reading from conn").
Proof.
  intros Hh Hc. destruct (Serve_outcome s conn ins w Hh Hc) as (-> & _).
  destruct (close_met ins); [split; [done | intros err; discriminate]|].
  destruct (read_failure ins) as [e|]; [|split; [discriminate | intros err; discriminate]].
  destruct (s_close s) eqn:Hflag; simpl; split; try done; try discriminate.
  intros err [= <-]. split; [done | by exists e].
Qed.

Lemma Serve_result_tells_why_witness :
  s_close (snd (fst (Serve server_r 3%nat [Arrives rrq_alpha client; CloseCalled] world0)))
  = true.
Proof.
  apply (Serve_result_tells_why server_r 3%nat [Arrives rrq_alpha client; CloseCalled] world0).
  - left. discriminate.
  - apply (bool_decide_eq_true_1 (3%nat ∈ w_open world0)). reflexivity.
  - reflexivity.
Defined.

(** X9.  [Serve] opens no socket and does not close the listener, not even
    when it returns on a failed read: the open sockets are the same after it
    as before, except that a [Close] met by the loop has closed the listener. *)
Theorem Serve_leaves_listener_open (s : Server) (conn : nat) (ins : list input) (w : World) :
  has_handler s -> conn ∈ w_open w ->
  (close_met ins = false -> w_open (snd (Serve s conn ins w)) = w_open w)
  /\ (close_met ins = true -> w_open (snd (Serve s conn ins w)) = w_open w ∖ {[conn]}).
Proof.
  intros Hh Hc. destruct (Serve_outcome s conn ins w Hh Hc) as (_ & -> & _).
  by destruct (close_met ins).
Qed.

Lemma Serve_leaves_listener_open_witness :
  w_open (snd (Serve server_r 3%nat
                 [Arrives rrq_alpha client; ReadFails (ErrPlatform "network is down")] world0))
  = w_open world0.
Proof.
  apply (Serve_leaves_listener_open server_r 3%nat
           [Arrives rrq_alpha client; ReadFails (ErrPlatform "network is down")] world0).
  - left. discriminate.
  - apply (bool_decide_eq_true_1 (3%nat ∈ w_open world0)). reflexivity.
  - reflexivity.
Defined.

(** One turn of the loop keeps the receive buffer in order and leaves every
    array that was there before, the buffer apart, as it was. *)
Lemma received_frame (conn buf : nat) (p : list byte) (a : UDPAddr) (w : World) :
  length (deref w buf) = 1024%nat -> buf ∈ dom (w_heap w) ->
  length (deref (received conn buf p a w) buf) = 1024%nat
  /\ buf ∈ dom (w_heap (received conn buf p a w))
  /\ (forall l, l ∈ dom (w_heap w) -> l <> buf ->
        l ∈ dom (w_heap (received conn buf p a w))
        /\ w_heap (received conn buf p a w) !! l = w_heap w !! l).
Proof.
  intros Hlen Hbuf.
  destruct (loop_inv_received conn buf p a [] w) as (l0 & _ & (Hlen' & Hbuf' & _) & _).
  { split; [done|]. split; [done|]. split; [constructor|].
    intros l Hl. by apply elem_of_nil in Hl. }
  split; [done|]. split; [done|].
  destruct (received_spec conn buf p a w Hlen Hbuf) as (l1 & Hl1 & Hne & ->).
  intros l Hl Hlb. simpl. split.
  - rewrite !dom_insert_L. apply elem_of_union_r, elem_of_union_r, Hl.
  - rewrite !lookup_insert_ne; [done | done |]. intros ->. done.
Qed.

Lemma Serve_loop_frame (s : Server) (conn buf : nat) (ins : list input) :
  s_conn s = Some conn ->
  forall (w : World),
    conn ∈ w_open w -> length (deref w buf) = 1024%nat -> buf ∈ dom (w_heap w) ->
    forall l, l ∈ dom (w_heap w) -> l <> buf ->
      w_heap (snd (Serve_loop s conn buf ins w)) !! l = w_heap w !! l.
Proof.
  intros Hs. induction ins as [|[p a | e | ] rest IH]; intros w Hc Hlen Hbuf l Hl Hlb.
  - simpl. by rewrite decide_True.
  - rewrite Serve_loop_arrives by done.
    destruct (received_frame conn buf p a w Hlen Hbuf) as (Hlen' & Hbuf' & Hold).
    destruct (Hold l Hl Hlb) as [Hl' <-].
    apply IH; [by rewrite received_open | done | done | done | done].
  - simpl. rewrite decide_True by done. by rewrite readFailed_world.
  - simpl. rewrite decide_True by done. rewrite (Close_open s conn w Hs Hc).
    rewrite Serve_loop_closed by (simpl; set_solver). by rewrite readFailed_world.
Qed.

(** X10.  [Serve] writes only to what it allocates itself: every byte array
    that is on the heap when [Serve] starts holds the same bytes when it
    returns or blocks, whatever it has met in between. *)
Theorem Serve_heap_frame (s : Server) (conn : nat) (ins : list input) (w : World) (l : nat) :
  conn ∈ w_open w -> l ∈ dom (w_heap w) ->
  w_heap (snd (Serve s conn ins w)) !! l = w_heap w !! l.
Proof.
  intros Hc Hl.
  destruct (s_rh s) as [rh|] eqn:Hrh; [|destruct (s_wh s) as [wh|] eqn:Hwh].
  3: { unfold Serve. by rewrite Hrh, Hwh. }
  all: assert (has_handler s) as Hh by (unfold has_handler; rewrite ?Hrh, ?Hwh; eauto).
  all: rewrite Serve_enters_loop by done.
  all: assert (l <> fresh (dom (w_heap w))) as Hne
      by (intros ->; by apply (is_fresh (dom (w_heap w)))).
  all: rewrite (Serve_loop_frame (set_conn (Some conn) s) conn (fresh (dom (w_heap w))) ins
                  eq_refl
                  (set_heap (<[fresh (dom (w_heap w)) := replicate 1024 x00]> (w_heap w)) w) Hc);
    [ unfold set_heap; cbn [w_heap]; by rewrite lookup_insert_ne
    | unfold deref, set_heap; cbn [w_heap]; rewrite lookup_insert_eq; apply length_replicate
    | unfold set_heap; cbn [w_heap]; rewrite dom_insert_L; apply elem_of_union_l, elem_of_singleton; reflexivity
    | unfold set_heap; cbn [w_heap]; rewrite dom_insert_L; by apply elem_of_union_r
    | done ].
Qed.

Lemma Serve_heap_frame_witness :
  w_heap (snd (Serve server_r 3%nat [Arrives rrq_alpha client; Arrives ack_1 client] world_busy))
  !! 7%nat = w_heap world_busy !! 7%nat.
Proof.
  apply (Serve_heap_frame server_r 3%nat [Arrives rrq_alpha client; Arrives ack_1 client]
           world_busy 7%nat).
  - apply (bool_decide_eq_true_1 (3%nat ∈ w_open world_busy)). reflexivity.
  - apply (bool_decide_eq_true_1 (7%nat ∈ dom (w_heap world_busy))). reflexivity.
Defined.

(** ** Addr and ListenAndServe *)

Lemma Serve_loop_conn (conn buf : nat) (ins : list input) :
  forall (s : Server) (w : World),
    s_conn (snd (fst (Serve_loop s conn buf ins w))) = s_conn s.
Proof.
  induction ins as [|[p a | e | ] rest IH]; intros s w; simpl;
    (destruct (decide (conn ∈ w_open w));
     [|unfold readFailed; by destruct (s_close s)]).
  - done.
  - apply IH.
  - unfold readFailed. by destruct (s_close s).
  - destruct (Close s w) as [[err s'] w'] eqn:Hclose.
    rewrite IH. unfold Close, bind, ret in Hclose.
    destruct (UDPConn_Close (s_conn (set_close true s)) w) as [err0 w0].
    by injection Hclose as _ <- _.
Qed.

(** X11.  [Addr] answers ErrAddressNotAvailable as long as the server has no
    connection, and a server keeps none when [Serve] refuses to start for want
    of a handler.  Once [Serve] has started with a handler registered, [Addr]
    answers with the local address of the socket [Serve] was given, while the
    loop runs and after it has returned, [Close] included. *)
Theorem Addr_available_once_serving {N : Net} (s : Server) (conn : nat) (ins : list input)
    (w : World) :
  (s_conn s = None -> Addr s = (None, Some ErrAddressNotAvailable))
  /\ (s_conn s = None -> s_rh s = None -> s_wh s = None ->
      Addr (snd (fst (Serve s conn ins w))) = (None, Some ErrAddressNotAvailable))
  /\ (has_handler s ->
      Addr (snd (fst (Serve s conn ins w))) = (Some (LocalAddr conn), None)).
Proof.
  split; [|split].
  - intros Hs. unfold Addr. by rewrite Hs.
  - intros Hs Hrh Hwh. unfold Serve. rewrite Hrh, Hwh. simpl. unfold Addr. by rewrite Hs.
  - intros Hh. rewrite Serve_enters_loop by done. unfold Addr.
    by rewrite Serve_loop_conn.
Qed.

Lemma Addr_available_once_serving_witness :
  @Addr Loopback.net server0 = (None, Some ErrAddressNotAvailable)
  /\ @Addr Loopback.net
       (snd (fst (Serve server_r 3%nat [Arrives rrq_alpha client; CloseCalled] world0)))
     = (Some {| IP := []; Port := 49155; Zone := "" |}, None).
Proof.
  destruct (@Addr_available_once_serving Loopback.net server0 3%nat [] world0) as (Hnil & _).
  destruct (@Addr_available_once_serving Loopback.net server_r 3%nat
              [Arrives rrq_alpha client; CloseCalled] world0) as (_ & _ & Hrun).
  split.
  - apply Hnil. reflexivity.
  - apply Hrun. left. discriminate.
Defined.

(** X12.  A server as [NewServer] makes it with [ServerNet] and
    [ServerRetransmit] options cannot serve yet: [Serve] returns
    ErrNoRegisteredHandlers and leaves the world untouched, and registering
    nil handlers changes nothing of that.  Registering a read handler or a
    write handler that is not nil is enough: [Serve] then runs, and is in the
    read on an open listener while nothing arrives. *)
Theorem new_server_serves_after_registration (addr : string) (os : list option_spec)
    (s : Server) (conn : nat) (ins : list input) (w : World) :
  Forall valid_spec os -> NewServer addr (map to_opt os) = (Some s, None) ->
  Serve s conn ins w = (Returned (Some ErrNoRegisteredHandlers), s, w)
  /\ fst (fst (Serve (RegisterReadHandler None s) conn ins w))
     = Returned (Some ErrNoRegisteredHandlers)
  /\ fst (fst (Serve (RegisterWriteHandler None s) conn ins w))
     = Returned (Some ErrNoRegisteredHandlers)
  /\ fst (fst (Serve (RegisterWriteHandler None (RegisterReadHandler None s)) conn ins w))
     = Returned (Some ErrNoRegisteredHandlers)
  /\ (forall rh, fst (fst (Serve (RegisterReadHandler (Some rh) s) conn ins w))
                 <> Returned (Some ErrNoRegisteredHandlers))
  /\ (forall wh, fst (fst (Serve (RegisterWriteHandler (Some wh) s) conn ins w))
                 <> Returned (Some ErrNoRegisteredHandlers))
  /\ (conn ∈ w_open w ->
      (forall rh, fst (fst (Serve (RegisterReadHandler (Some rh) s) conn [] w)) = Blocked)
      /\ (forall wh, fst (fst (Serve (RegisterWriteHandler (Some wh) s) conn [] w)) = Blocked)).
Proof.
  intros Hall Hnew. rewrite (NewServer_last_option_wins addr os Hall) in Hnew.
  injection Hnew as <-.
  split; [done|]. split; [done|]. split; [done|]. split; [done|]. split; [|split].
  - intros rh. rewrite Serve_enters_loop by (left; discriminate). apply Serve_loop_result.
  - intros wh. rewrite Serve_enters_loop by (right; discriminate). apply Serve_loop_result.
  - intros Hc. split.
    + intros rh. apply Serve_blocked_on_nothing; [left; discriminate | done].
    + intros wh. apply Serve_blocked_on_nothing; [right; discriminate | done].
Qed.

Lemma new_server_serves_after_registration_witness :
  Serve (mkServer "server" "udp6" ":69" None None false 5 None None) 3%nat
        [Arrives rrq_alpha client] world0
  = (Returned (Some ErrNoRegisteredHandlers),
     mkServer "server" "udp6" ":69" None None false 5 None None, world0)
  /\ fst (fst (Serve (RegisterReadHandler None
                        (mkServer "server" "udp6" ":69" None None false 5 None None))
                     3%nat [Arrives rrq_alpha client] world0))
     = Returned (Some ErrNoRegisteredHandlers)
  /\ fst (fst (Serve (RegisterWriteHandler (Some fs_write)
                        (mkServer "server" "udp6" ":69" None None false 5 None None))
                     3%nat [] world0))
     = Blocked.
Proof.
  destruct (new_server_serves_after_registration ":69" [WithNet "udp6"; WithRetransmit 5]
              (mkServer "server" "udp6" ":69" None None false 5 None None) 3%nat
              [Arrives rrq_alpha client] world0) as (Hnone & Hnil & _).
  { repeat constructor; simpl; auto; lia. }
  { reflexivity. }
  destruct (new_server_serves_after_registration ":69" [WithNet "udp6"; WithRetransmit 5]
              (mkServer "server" "udp6" ":69" None None false 5 None None) 3%nat
              [] world0) as (_ & _ & _ & _ & _ & _ & Hblock).
  { repeat constructor; simpl; auto; lia. }
  { reflexivity. }
  split; [exact Hnone|]. split; [exact Hnil|].
  apply Hblock. apply (bool_decide_eq_true_1 (3%nat ∈ w_open world0)). reflexivity.
Defined.

(** The package's [ListenAndServe], step by step. *)
Lemma ListenAndServe_unfold {N : Net} (addr : string) (rh : option ReadHandler)
    (wh : option WriteHandler) (ins : list input) (w : World) :
  ListenAndServe addr rh wh ins w
  = match ResolveUDPAddr "udp" addr with
    | inr e =>
        (Returned (Some (ErrWrapped (ErrWrapped e "resolving server address") "starting server")),
         Some (mkServer "server" "udp" addr None None false 10 rh wh), w)
    | inl a =>
        match w_refuse w with
        | Some e =>
            (Returned (Some (ErrWrapped (ErrWrapped e "opening network connection")
                               "starting server")),
             Some (mkServer "server" "udp" addr (Some a) None false 10 rh wh), w)
        | None =>
            match Serve (mkServer "server" "udp" addr (Some a) None false 10 rh wh)
                        (fresh (w_open w)) ins
                        (mkWorld (w_heap w) ({[fresh (w_open w)]} ∪ w_open w) (w_refuse w)
                                 (w_trace w)) with
            | (Returned err, s, w') =>
                (Returned (wrapError (wrapError err "serving tftp") "starting server"),
                 Some s, w')
            | (Blocked, s, w') => (Blocked, Some s, w')
            end
        end
    end.
Proof.
  unfold ListenAndServe, NewServer, Server_ListenAndServe, ListenUDP,
    set_addr, set_wh, set_rh, defaultUDPNet, defaultRetransmit. simpl.
  destruct (ResolveUDPAddr "udp" addr) as [a | e]; [|done].
  destruct (w_refuse w) as [e|]; [done|].
  by destruct (Serve _ _ ins _) as [[[|err] s'] w'].
Qed.

(** X13.  [ListenAndServe] looks for a handler only after it has bound the
    socket: called with no handler at all on an address that resolves, it
    returns ErrNoRegisteredHandlers wrapped with "serving tftp" and "starting
    server" without reading anything, and the socket it opened is still open;
    the server it made has no connection, so its [Addr] is not available. *)
Theorem ListenAndServe_binds_before_handler_check {N : Net} (addr : string)
    (ins : list input) (w : World) (a : UDPAddr) :
  ResolveUDPAddr "udp" addr = inl a -> w_refuse w = None ->
  fst (fst (ListenAndServe addr None None ins w))
  = Returned (Some (ErrWrapped (ErrWrapped ErrNoRegisteredHandlers "serving tftp")
                      "starting server"))
  /\ w_open (snd (ListenAndServe addr None None ins w)) = {[fresh (w_open w)]} ∪ w_open w
  /\ (fresh (w_open w) ∉ w_open w)
  /\ w_trace (snd (ListenAndServe addr None None ins w)) = w_trace w
  /\ (exists s, snd (fst (ListenAndServe addr None None ins w)) = Some s
                /\ s_conn s = None /\ s_addr s = Some a
                /\ Addr s = (None, Some ErrAddressNotAvailable)).
Proof.
  intros Hres Hr. rewrite ListenAndServe_unfold, Hres, Hr. unfold Serve. simpl.
  split; [done|]. split; [done|]. split; [apply is_fresh|]. split; [done|].
  eexists. by repeat split.
Qed.

Lemma ListenAndServe_binds_before_handler_check_witness :
  w_open (snd (@ListenAndServe Loopback.net ":69" None None
                 [Arrives rrq_alpha client] world0))
  = {[fresh (w_open world0)]} ∪ w_open world0
  /\ fst (fst (@ListenAndServe Loopback.net ":69" None None [Arrives rrq_alpha client] world0))
     = Returned (Some (ErrWrapped (ErrWrapped ErrNoRegisteredHandlers "serving tftp")
                         "starting server")).
Proof.
  destruct (@ListenAndServe_binds_before_handler_check Loopback.net ":69"
              [Arrives rrq_alpha client] world0 {| IP := []; Port := 69; Zone := "" |}
              eq_refl eq_refl) as (Hres & Hopen & _).
  split; [exact Hopen | exact Hres].
Defined.

(** X14.  The method [ListenAndServe] of a server that has a handler, whose
    address resolves and which is granted its socket: a [Close] of that server
    met by the loop (after any number of datagrams) makes the method return
    nil, the wrapping with "serving tftp" keeping the nil of [Serve].  The
    listener the method opened is closed again; the server has its close flag
    set and keeps the resolved address and the connection. *)
Theorem Server_ListenAndServe_nil_after_Close {N : Net} (s : Server) (ins : list input)
    (w : World) (a : UDPAddr) :
  has_handler s -> ResolveUDPAddr (s_net s) (s_addrStr s) = inl a -> w_refuse w = None ->
  close_met ins = true ->
  fst (Server_ListenAndServe s ins w)
  = (Returned None,
     set_close true (set_conn (Some (fresh (w_open w))) (set_addr (Some a) s)))
  /\ w_open (snd (Server_ListenAndServe s ins w)) = w_open w.
Proof.
  intros Hh Hres Hr Hclose. unfold Server_ListenAndServe. rewrite Hres.
  unfold ListenUDP. cbn [s_net set_addr]. rewrite Hr.
  match goal with
  | |- context [Serve ?s1 ?c ins ?w1] =>
      destruct (Serve_outcome s1 c ins w1 Hh (fresh_in_opened (w_open w))) as (Hout & Hopen & _);
      destruct (Serve s1 c ins w1) as [[r s'] w']
  end.
  rewrite Hclose in Hout, Hopen. cbn [fst snd w_open] in Hout, Hopen.
  injection Hout as -> ->. cbn [fst snd wrapError].
  split; [done | by rewrite Hopen, fresh_socket_closed].
Qed.

Lemma Server_ListenAndServe_nil_after_Close_witness :
  fst (@Server_ListenAndServe Loopback.net server_r
         [Arrives rrq_alpha client; CloseCalled; Arrives ack_1 client] world0)
  = (Returned None,
     set_close true
       (set_conn (Some (fresh (w_open world0)))
          (set_addr (Some {| IP := []; Port := 69; Zone := "" |}) server_r)))
  /\ w_open (snd (@Server_ListenAndServe Loopback.net server_r
                    [Arrives rrq_alpha client; CloseCalled; Arrives ack_1 client] world0))
     = w_open world0.
Proof.
  apply (@Server_ListenAndServe_nil_after_Close Loopback.net server_r
           [Arrives rrq_alpha client; CloseCalled; Arrives ack_1 client] world0
           {| IP := []; Port := 69; Zone := "" |}).
  - left. discriminate.
  - reflexivity.
  - reflexivity.
  - reflexivity.
Defined.

(** X16.  The package's [ListenAndServe] keeps its server to itself, so its
    loop meets no [Close]; then it never returns nil: it is in the read, or it
    returns an error. *)
Theorem ListenAndServe_never_nil {N : Net} (addr : string) (rh : option ReadHandler)
    (wh : option WriteHandler) (ins : list input) (w : World) :
  close_met ins = false ->
  fst (fst (ListenAndServe addr rh wh ins w)) = Blocked
  \/ (exists err, fst (fst (ListenAndServe addr rh wh ins w)) = Returned (Some err)).
Proof.
  intros Hclose. rewrite ListenAndServe_unfold.
  destruct (ResolveUDPAddr "udp" addr) as [a | e]; [|right; by eexists].
  destruct (w_refuse w) as [e|] eqn:Hr; [right; by eexists|].
  destruct rh as [h|]; [|destruct wh as [h|]].
  3: { unfold Serve. simpl. right. by eexists. }
  all: match goal with
       | |- context [Serve ?s ?c ?i ?w1] =>
           assert (has_handler s) as Hh by (unfold has_handler; simpl; eauto);
           destruct (Serve_outcome s c i w1 Hh (fresh_in_opened _)) as (Hout & _);
           destruct (Serve s c i w1) as [[r s'] w'];
           rewrite Hclose in Hout; simpl in Hout;
           destruct (read_failure i) as [e|];
           injection Hout as -> _; simpl; [right; by eexists | by left]
       end.
Qed.

Lemma ListenAndServe_never_nil_witness :
  fst (fst (@ListenAndServe Loopback.net ":69" (Some fs_read) None
              [Arrives rrq_alpha client; ReadFails (ErrPlatform "network is down")] world0))
  = Blocked
  \/ (exists err,
        fst (fst (@ListenAndServe Loopback.net ":69" (Some fs_read) None
                    [Arrives rrq_alpha client; ReadFails (ErrPlatform "network is down")]
                    world0))
        = Returned (Some err)).
Proof.
  apply (@ListenAndServe_never_nil Loopback.net ":69" (Some fs_read) None
           [Arrives rrq_alpha client; ReadFails (ErrPlatform "network is down")] world0).
  reflexivity.
Defined.

(** X15.  Every error the package's [ListenAndServe] returns is one of four,
    each wrapped with "starting server": the resolver's error wrapped with
    "resolving server address", or the error of opening the socket wrapped
    with "opening network connection", both with the world untouched; or
    ErrNoRegisteredHandlers wrapped with "serving tftp", when no handler was
    given; or the error of a failed read wrapped with "reading from conn" and
    "serving tftp".  [NewServer]'s error branch is never taken. *)
Theorem ListenAndServe_error_chain {N : Net} (addr : string) (rh : option ReadHandler)
    (wh : option WriteHandler) (ins : list input) (w : World) (err : error) :
  fst (fst (ListenAndServe addr rh wh ins w)) = Returned (Some err) ->
  (exists e, ResolveUDPAddr "udp" addr = inr e
             /\ err = ErrWrapped (ErrWrapped e "resolving server address") "starting server"
             /\ snd (ListenAndServe addr rh wh ins w) = w)
  \/ (exists a e, ResolveUDPAddr "udp" addr = inl a /\ w_refuse w = Some e
                  /\ err = ErrWrapped (ErrWrapped e "opening network connection")
                                      "starting server"
                  /\ snd (ListenAndServe addr rh wh ins w) = w)
  \/ (exists a, ResolveUDPAddr "udp" addr = inl a /\ w_refuse w = None
                /\ rh = None /\ wh = None
                /\ err = ErrWrapped (ErrWrapped ErrNoRegisteredHandlers "serving tftp")
                                    "starting server")
  \/ (exists a e, ResolveUDPAddr "udp" addr = inl a /\ w_refuse w = None
                  /\ (rh <> None \/ wh <> None)
                  /\ close_met ins = false /\ read_failure ins = Some e
                  /\ err = ErrWrapped (ErrWrapped (ErrWrapped e "reading from conn")
                                         "serving tftp") "starting server").
Proof.
  rewrite ListenAndServe_unfold.
  destruct (ResolveUDPAddr "udp" addr) as [a | e] eqn:Hres.
  2: { simpl. intros [= <-]. left. by exists e. }
  destruct (w_refuse w) as [e|] eqn:Hr.
  { simpl. intros [= <-]. right. left. by exists a, e. }
  destruct rh as [h|] eqn:Hrh; [|destruct wh as [h|] eqn:Hwh].
  3: { unfold Serve. simpl. intros [= <-]. right. right. left. by exists a. }
  all: match goal with
       | |- context [Serve ?s ?c ?i ?w1] =>
           assert (has_handler s) as Hh by (unfold has_handler; simpl; eauto);
           destruct (Serve_outcome s c i w1 Hh (fresh_in_opened _)) as (Hout & _);
           destruct (Serve s c i w1) as [[r s'] w'];
           simpl in Hout; destruct (close_met i) eqn:Hclose;
           [injection Hout as -> _; discriminate|];
           destruct (read_failure i) as [e|] eqn:Hfail;
           [|injection Hout as -> _; discriminate];
           injection Hout as -> _; simpl; intros [= <-]
       end.
  all: right; right; right; exists a, e; repeat split; eauto; discriminate.
Qed.

Lemma ListenAndServe_error_chain_witness :
  (exists e, @ResolveUDPAddr Loopback.net "udp" "tftp.example:69" = inr e
             /\ ErrWrapped (ErrWrapped (ErrPlatform "no such host") "resolving server address")
                           "starting server"
                = ErrWrapped (ErrWrapped e "resolving server address") "starting server"
             /\ snd (@ListenAndServe Loopback.net "tftp.example:69" (Some fs_read) None
                       [Arrives rrq_alpha client] world0) = world0)
  \/ (exists a e, @ResolveUDPAddr Loopback.net "udp" "tftp.example:69" = inl a
                  /\ w_refuse world0 = Some e
                  /\ ErrWrapped (ErrWrapped (ErrPlatform "no such host")
                                   "resolving server address") "starting server"
                     = ErrWrapped (ErrWrapped e "opening network connection") "starting server"
                  /\ snd (@ListenAndServe Loopback.net "tftp.example:69" (Some fs_read) None
                            [Arrives rrq_alpha client] world0) = world0)
  \/ (exists a, @ResolveUDPAddr Loopback.net "udp" "tftp.example:69" = inl a
                /\ w_refuse world0 = None
                /\ Some fs_read = None /\ @None WriteHandler = None
                /\ ErrWrapped (ErrWrapped (ErrPlatform "no such host")
                                 "resolving server address") "starting server"
                   = ErrWrapped (ErrWrapped ErrNoRegisteredHandlers "serving tftp")
                                "starting server")
  \/ (exists a e, @ResolveUDPAddr Loopback.net "udp" "tftp.example:69" = inl a
                  /\ w_refuse world0 = None
                  /\ (Some fs_read <> None \/ @None WriteHandler <> None)
                  /\ close_met [Arrives rrq_alpha client] = false
                  /\ read_failure [Arrives rrq_alpha client] = Some e
                  /\ ErrWrapped (ErrWrapped (ErrPlatform "no such host")
                                   "resolving server address") "starting server"
                     = ErrWrapped (ErrWrapped (ErrWrapped e "reading from conn")
                                     "serving tftp") "starting server").
Proof.
  apply (@ListenAndServe_error_chain Loopback.net "tftp.example:69" (Some fs_read) None
           [Arrives rrq_alpha client] world0
           (ErrWrapped (ErrWrapped (ErrPlatform "no such host") "resolving server address")
              "starting server")).
  reflexivity.
Defined.
